(** * streamlit-ldap-authenticator: the reauthentication engine

    A shallow embedding of [streamlit_ldap_authenticator/authenticate.py]
    (class [Authenticate]) and the properties of its login, logout, token
    and user-name handling.

    Python values are an inductive type, [st.session_state] and the browser's
    cookie jar are finite maps, and every method that touches them is a
    computation in a state-and-exception monad over a [World] that also logs
    the calls made to the outside (cookie controller, forms, directory,
    [time.sleep], [st.rerun]).

    What is outside the module is a parameter: PyJWT ([jwt_encode],
    [jwt_decode]), [getEvent] and the forms' results, the directory
    ([LdapAuthenticate]), and the functions a caller passes to [login] and
    [createLogoutForm], which are taken to compute a result and do nothing
    else.  The clock is read from the world and moves with [time.sleep]
    only. *)

From Stdlib Require Import QArith ZArith String Ascii List Lia Lqa.
From stdpp Require Import gmap strings.
Close Scope Q_scope.
Import ListNotations.
Local Open Scope string_scope.
Local Open Scope list_scope.
Set Warnings "-register-all".

(** ** Python values *)

(** The values that flow through the engine: what [json] can carry, which is
    also what a cookie, a session slot or a callback result holds.  A [float]
    is represented by the rational it denotes; the code only adds a number of
    days to a clock reading and compares two readings. *)
Inductive PyVal : Type :=
| PNone
| PBool (b : bool)
| PInt (z : Z)
| PFloat (q : Q)
| PStr (s : string)
| PList (l : list PyVal)
| PDict (d : list (string * PyVal)).

Abbreviation PTrue := (PBool true).
Abbreviation PFalse := (PBool false).

(** A [dict] with [str] keys, in insertion order. *)
Abbreviation Dict := (list (string * PyVal)).

(** [k in d] and [d[k]] *)
Fixpoint dict_get (d : Dict) (k : string) : option PyVal :=
  match d with
  | [] => None
  | (k', v) :: d' => if String.eqb k' k then Some v else dict_get d' k
  end.

(** [d.pop(k, default)], for its effect on [d] *)
Fixpoint dict_pop (d : Dict) (k : string) : Dict :=
  match d with
  | [] => []
  | (k', v) :: d' => if String.eqb k' k then dict_pop d' k else (k', v) :: dict_pop d' k
  end.

(** [d[k] = v]: an existing key keeps its place *)
Fixpoint dict_set (d : Dict) (k : string) (v : PyVal) : Dict :=
  match d with
  | [] => [(k, v)]
  | (k', v') :: d' => if String.eqb k' k then (k', v) :: d' else (k', v') :: dict_set d' k v
  end.

(** [type(v) is dict], [type(v) is str] *)
Definition is_dict (v : PyVal) : bool := match v with PDict _ => true | _ => false end.
Definition is_str (v : PyVal) : bool := match v with PStr _ => true | _ => false end.

(** [v == True].  [bool] is a subclass of [int] in Python, so the numbers
    [1] and [1.0] compare equal to [True]; no other value of [PyVal] does. *)
Definition py_eq_True (v : PyVal) : bool :=
  match v with
  | PBool b => b
  | PInt z => (z =? 1)%Z
  | PFloat q => Qeq_bool q 1
  | _ => false
  end.

(** [v == s] for a [str] literal [s] *)
Definition py_eq_str (v : PyVal) (s : string) : bool :=
  match v with
  | PStr s' => String.eqb s' s
  | _ => false
  end.

(** [x < y] on floats *)
Definition Qltb (x y : Q) : bool := negb (Qle_bool y x).

Lemma Qltb_lt x y : Qltb x y = true <-> (x < y)%Q.
Proof.
  unfold Qltb. rewrite negb_true_iff, <- not_true_iff_false, Qle_bool_iff.
  split; [apply Qnot_le_lt | apply Qlt_not_le].
Qed.

Lemma Qltb_ge x y : Qltb x y = false <-> (y <= x)%Q.
Proof. unfold Qltb. rewrite negb_false_iff. apply Qle_bool_iff. Qed.

(** ** Configuration *)

(** [configs.py] is not part of the sources at hand; the records list the
    attributes [authenticate.py] reads. *)
Module SessionStateConfig.
(** [user] may be [None] ([__setUser] tests for it). *)
Record t := mk { user : option string; remember_me : string; auth_result : string }.
End SessionStateConfig.

Module CookieConfig.
Record t := mk {
  name : string;
  key : string;
  expiry_days : Q;
  auto_renewal : bool;
  delay_sec : Q }.
End CookieConfig.

(** ** The world outside the engine *)

(** The calls the engine makes to its collaborators, in the order made. *)
Inductive Event : Type :=
| EvCookieGet (name : string)
| EvCookieGetAll
| EvCookieSet (name : string) (token : string) (expires : Q)
| EvCookieRemove (name : string)
| EvSleep (sec : Q)
| EvPrint (msg : string)
| EvSigninForm (default : PyVal) (config : Dict)
| EvSignoutForm (config : Dict)
| EvDecrypt (payload : string)
| EvLdapLogin (login_name password : string)
| EvCallback (arg : PyVal)
| EvSignoutCallback
| EvAdditionalCheck (user : PyVal)
| EvError (msg : PyVal)
| EvErrorUnexpected (result : PyVal)
| EvRerun.

Record World := mkWorld {
  session_state : gmap string PyVal;  (* st.session_state *)
  cookies : gmap string PyVal;        (* the browser's cookies, through CookieController *)
  utcnow : Q;                         (* datetime.utcnow().timestamp() *)
  signin_result : PyVal;              (* what ui.signinForm returns in this cycle *)
  signout_result : PyVal;             (* what ui.signoutForm returns in this cycle *)
  trace : list Event }.

(** The ways a method ends other than by returning. *)
Inductive Exn : Type :=
| RerunException            (* st.rerun() *)
| KeyError (k : string)     (* del ss[k] on a missing key *)
| ValueError.               (* time.sleep of a negative number *)

Inductive Res (A : Type) : Type :=
| Ret (a : A)
| Raise (e : Exn).
Arguments Ret {A} a.
Arguments Raise {A} e.

Definition M (A : Type) : Type := World -> Res A * World.

#[global] Instance M_ret : MRet M := fun A a w => (Ret a, w).
#[global] Instance M_bind : MBind M := fun A B f m w =>
  match m w with
  | (Ret a, w') => f a w'
  | (Raise e, w') => (Raise e, w')
  end.

Definition raise {A} (e : Exn) : M A := fun w => (Raise e, w).
Definition get_world : M World := fun w => (Ret w, w).

(** Updates of one field of the world. *)
Definition with_session_state (ss : gmap string PyVal) (w : World) : World :=
  mkWorld ss (cookies w) (utcnow w) (signin_result w) (signout_result w) (trace w).

Definition with_cookies (c : gmap string PyVal) (w : World) : World :=
  mkWorld (session_state w) c (utcnow w) (signin_result w) (signout_result w) (trace w).

Definition log (e : Event) (w : World) : World :=
  mkWorld (session_state w) (cookies w) (utcnow w) (signin_result w) (signout_result w)
          (trace w ++ [e]).

Definition slept (sec : Q) (w : World) : World :=
  mkWorld (session_state w) (cookies w) (utcnow w + sec)%Q (signin_result w) (signout_result w)
          (trace w ++ [EvSleep sec]).

Definition emit (e : Event) : M unit := fun w => (Ret tt, log e w).

Definition set_session_state (ss : gmap string PyVal) : M unit := fun w =>
  (Ret tt, with_session_state ss w).

Definition set_cookies (c : gmap string PyVal) : M unit := fun w =>
  (Ret tt, with_cookies c w).

(** [time.sleep(sec)]: the clock moves on by [sec]. *)
Definition sleep (sec : Q) : M unit := fun w =>
  if Qltb sec 0 then (Raise ValueError, w) else (Ret tt, slept sec w).

(** [timedelta(days=d)] in seconds *)
Definition timedelta_days (d : Q) : Q := (d * 86400)%Q.

(** [try: body finally: handler] *)
Definition try_finally {A} (body : M A) (handler : M unit) : M A := fun w =>
  match body w with
  | (r, w') =>
      match handler w' with
      | (Ret _, w'') => (r, w'')
      | (Raise e, w'') => (Raise e, w'')
      end
  end.

(** ** Regular expressions

    The two patterns of the module are matched with [re.match]: a
    backtracking matcher for the constructs they use, with Python's
    priorities (greedy repetition, leftmost alternative first).  A character
    of a [string] stands for a code point below 256. *)

Inductive regex : Type :=
| RBegin                          (* ^ *)
| REnd                            (* $ *)
| REps                            (* the empty pattern *)
| RChar (c : ascii)               (* a literal character *)
| RAny                            (* . *)
| RSet (p : ascii -> bool)        (* [...] *)
| RCat (r1 r2 : regex)
| ROpt (r : regex)                (* r? *)
| RStar (r : regex)               (* r* *)
| RGroup (i : nat) (r : regex).   (* ( r ), the group number i *)

(** [r+] *)
Definition RPlus (r : regex) : regex := RCat r (RStar r).

(** [r{lo,lo+more}] *)
Fixpoint RUpTo (r : regex) (more : nat) : regex :=
  match more with
  | O => REps
  | S more' => ROpt (RCat r (RUpTo r more'))
  end.

Fixpoint RRepeat (r : regex) (lo more : nat) : regex :=
  match lo with
  | O => RUpTo r more
  | S lo' => RCat r (RRepeat r lo' more)
  end.

(** The groups matched so far, the latest first. *)
Abbreviation Groups := (list (nat * string)).

Definition newline : ascii := "010"%char.

(** The text consumed between the rest [s] and the later rest [s']. *)
Definition group_text (s s' : list ascii) : string :=
  string_of_list_ascii (firstn (length s - length s') s).

(** [rmatch inp r k s g]: match [r] at the rest [s] of the input [inp], then
    go on with [k]; [None] makes the matcher backtrack.  An iteration of a
    star that consumes nothing is not repeated. *)
Fixpoint rmatch (inp : list ascii) (r : regex) (k : list ascii -> Groups -> option Groups)
  (s : list ascii) (g : Groups) {struct r} : option Groups :=
  match r with
  | RBegin => if (length s =? length inp)%nat then k s g else None
  | REnd =>
      match s with
      | [] => k s g
      | [c] => if Ascii.eqb c newline then k s g else None
      | _ => None
      end
  | REps => k s g
  | RChar c =>
      match s with
      | c' :: s' => if Ascii.eqb c' c then k s' g else None
      | [] => None
      end
  | RAny =>
      match s with
      | c' :: s' => if Ascii.eqb c' newline then None else k s' g
      | [] => None
      end
  | RSet p =>
      match s with
      | c' :: s' => if p c' then k s' g else None
      | [] => None
      end
  | RCat r1 r2 => rmatch inp r1 (rmatch inp r2 k) s g
  | ROpt r1 =>
      match rmatch inp r1 k s g with
      | Some res => Some res
      | None => k s g
      end
  | RStar r1 =>
      (fix loop (n : nat) (s : list ascii) (g : Groups) {struct n} : option Groups :=
         match n with
         | O => k s g
         | S n' =>
             match rmatch inp r1
                     (fun s' g' => if (length s' <? length s)%nat then loop n' s' g' else None)
                     s g with
             | Some res => Some res
             | None => k s g
             end
         end) (length s) s g
  | RGroup i r1 => rmatch inp r1 (fun s' g' => k s' ((i, group_text s s') :: g')) s g
  end.

(** [pattern.match(s)]: the groups of the match, or [None]. *)
Definition re_match (r : regex) (s : string) : option Groups :=
  let inp := list_ascii_of_string s in
  rmatch inp r (fun _ g => Some g) inp [].

(** [m.groups()[i-1]] *)
Fixpoint group (g : Groups) (i : nat) : string :=
  match g with
  | [] => ""
  | (j, t) :: g' => if (j =? i)%nat then t else group g' i
  end.

Definition in_range (c : ascii) (lo hi : N) : bool :=
  ((lo <=? N_of_ascii c) && (N_of_ascii c <=? hi))%N.

(** [\w]: the alphanumeric characters and the underscore (among the code
    points below 256). *)
Definition is_word (c : ascii) : bool :=
  in_range c 48 57 || in_range c 65 90 || in_range c 97 122 || Ascii.eqb c "_"
  || in_range c 170 170 || in_range c 178 179 || in_range c 181 181
  || in_range c 185 186 || in_range c 188 190
  || in_range c 192 214 || in_range c 216 246 || in_range c 248 255.

(** [[\w\-\.]] and [[\w\-]] *)
Definition word_dash_dot (c : ascii) : bool := is_word c || Ascii.eqb c "-" || Ascii.eqb c ".".
Definition word_dash (c : ascii) : bool := is_word c || Ascii.eqb c "-".

(** [RegexDomain]: [^], a group of [.*], a backslash, a group of [.*], [$] *)
Definition RegexDomain : regex :=
  RCat RBegin
    (RCat (RGroup 1 (RStar RAny))
       (RCat (RChar "\")
          (RCat (RGroup 2 (RStar RAny)) REnd))).

(** [RegexEmail]: [^], one or more of [\w\-\.], [@], one or more groups of
    one or more of [\w\-] and a dot, two to four of [\w\-], [$] *)
Definition RegexEmail : regex :=
  RCat RBegin
    (RCat (RPlus (RSet word_dash_dot))
       (RCat (RChar "@")
          (RCat (RPlus (RGroup 1 (RCat (RPlus (RSet word_dash)) (RChar "."))))
             (RCat (RRepeat (RSet word_dash) 2 2) REnd)))).

(** The domain pattern splits at the last backslash, and [$] lets one closing
    newline pass; the email pattern wants a last label of two to four
    characters. *)
Example RegexDomain_last_backslash :
  re_match RegexDomain "A\B\c" = Some [(2, "c"); (1, "A\B")].
Proof. reflexivity. Qed.

Example RegexDomain_closing_newline :
  re_match RegexDomain ("CORP\jdoe" +:+ String newline "") = Some [(2, "jdoe"); (1, "CORP")]
  /\ re_match RegexDomain ("CORP" +:+ String newline "\jdoe") = None.
Proof. split; reflexivity. Qed.

Example RegexEmail_last_label :
  re_match RegexEmail "john.doe@mail.example.com" = Some [(1, "example."); (1, "mail.")]
  /\ re_match RegexEmail "john.doe@example.community" = None
  /\ re_match RegexEmail "john.doe@example.c" = None
  /\ re_match RegexEmail "CORP\john@example.com" = None.
Proof. repeat split; by vm_compute. Qed.

(** *** What a match of [RegexDomain] says about the input *)

Lemma group_text_app (pre post : list ascii) :
  group_text (pre ++ post) post = string_of_list_ascii pre.
Proof.
  unfold group_text. rewrite length_app.
  replace (length pre + length post - length post) with (length pre) by lia.
  by rewrite take_app_length.
Qed.

(** A match of [.*] followed by [k] is a match of [k] after some prefix. *)
Lemma rmatch_star_any inp k s g res :
  rmatch inp (RStar RAny) k s g = Some res ->
  exists pre post, s = pre ++ post /\ k post g = Some res.
Proof.
  simpl. generalize (length s). intros n. revert s g.
  induction n as [|n IH]; intros s g H.
  - by exists [], s.
  - destruct s as [|c s'].
    + by exists [], [].
    + simpl in H.
      match type of H with
      | context [Ascii.eqb c ?nl] => destruct (Ascii.eqb c nl) eqn:Hc
      end.
      * by exists [], (c :: s').
      * assert ((length s' <? S (length s'))%nat = true) as Hlt by (apply Nat.ltb_lt; lia).
        rewrite Hlt in H.
        match type of H with
        | match ?loop with _ => _ end = _ => destruct loop as [r|] eqn:Hloop
        end.
        -- injection H as <-. apply IH in Hloop as (pre & post & -> & Hk).
           by exists (c :: pre), post.
        -- by exists [], (c :: s').
Qed.

Lemma string_of_list_ascii_app (l1 l2 : list ascii) :
  string_of_list_ascii (l1 ++ l2) = string_of_list_ascii l1 +:+ string_of_list_ascii l2.
Proof. induction l1 as [|c l1 IH]; simpl; [done|]. by rewrite IH. Qed.

Lemma string_app_nil_r (s : string) : s +:+ "" = s.
Proof.
  induction s as [|a s IH]; [done|].
  change (String a s +:+ "") with (String a (s +:+ "")). by rewrite IH.
Qed.

Lemma string_app_assoc (s1 s2 s3 : string) : s1 +:+ (s2 +:+ s3) = (s1 +:+ s2) +:+ s3.
Proof.
  induction s1 as [|a s1 IH]; [done|].
  change (String a s1 +:+ (s2 +:+ s3)) with (String a (s1 +:+ (s2 +:+ s3))).
  by rewrite IH.
Qed.

(** The equations of [rmatch] used below. *)
Lemma rmatch_cat inp r1 r2 k s g :
  rmatch inp (RCat r1 r2) k s g = rmatch inp r1 (rmatch inp r2 k) s g.
Proof. reflexivity. Qed.

Lemma rmatch_begin inp k s g :
  rmatch inp RBegin k s g = if (length s =? length inp)%nat then k s g else None.
Proof. reflexivity. Qed.

Lemma rmatch_group inp i r k s g :
  rmatch inp (RGroup i r) k s g
  = rmatch inp r (fun s' g' => k s' ((i, group_text s s') :: g')) s g.
Proof. reflexivity. Qed.

Lemma rmatch_char inp c k s g :
  rmatch inp (RChar c) k s g
  = match s with
    | c' :: s' => if Ascii.eqb c' c then k s' g else None
    | [] => None
    end.
Proof. reflexivity. Qed.

Lemma rmatch_end inp k s g :
  rmatch inp REnd k s g
  = match s with
    | [] => k s g
    | [c] => if Ascii.eqb c newline then k s g else None
    | _ => None
    end.
Proof. reflexivity. Qed.

(** A match of [RegexDomain]: the input is the first group, a backslash and
    the second group, with at most a newline after them. *)
Lemma RegexDomain_match username g :
  re_match RegexDomain username = Some g ->
  exists tail,
    username = group g 1 +:+ "\" +:+ group g 2 +:+ tail
    /\ (tail = "" \/ tail = String newline "").
Proof.
  unfold re_match, RegexDomain.
  set (inp := list_ascii_of_string username).
  assert (username = string_of_list_ascii inp) as Hu
    by (unfold inp; by rewrite string_of_list_ascii_of_string).
  intros H.
  rewrite rmatch_cat, rmatch_begin, Nat.eqb_refl, rmatch_cat, rmatch_group in H.
  apply rmatch_star_any in H as (pre1 & post1 & Hinp & H).
  rewrite rmatch_cat, rmatch_char in H.
  destruct post1 as [|c rest]; [done|].
  destruct (Ascii.eqb c "\") eqn:Hc; [|done]. apply Ascii.eqb_eq in Hc as ->.
  rewrite rmatch_cat, rmatch_group in H.
  apply rmatch_star_any in H as (pre2 & post2 & Hrest & H).
  rewrite rmatch_end in H.
  rewrite Hinp, Hrest in *. rewrite !group_text_app in H.
  assert (g = [(2, string_of_list_ascii pre2); (1, string_of_list_ascii pre1)]
          /\ (post2 = [] \/ post2 = [newline])) as [-> Htail].
  { destruct post2 as [|c [|c' post2]]; try done.
    - by injection H as <-; auto.
    - destruct (Ascii.eqb c newline) eqn:Hc; [|done].
      apply Ascii.eqb_eq in Hc as ->. by injection H as <-; auto. }
  exists (string_of_list_ascii post2). split.
  - rewrite Hu. simpl. rewrite string_of_list_ascii_app. simpl.
    by rewrite string_of_list_ascii_app.
  - destruct Htail as [-> | ->]; auto.
Qed.

(** ** The collaborators *)

(** [streamlit_rsa_auth_ui]: what [getEvent] makes of a form's result. *)
Inductive UiEvent : Type :=
| SigninEvent (username password : string) (remember : PyVal)
| SignoutEvent
| OtherEvent.

(** A form or check configuration argument: [None], a [dict], or an object
    of the configuration class, given by its [toDict()]. *)
Inductive Config : Type :=
| CfgNone
| CfgDict (d : Dict)
| CfgObject (toDict : Dict).

(** The optional function arguments of [login]. *)
Section Callables.
Variable Connection : Type.

(** [additionalCheck(connection | None, user) -> True | str] *)
Definition AdditionalCheck : Type := option Connection -> PyVal -> PyVal.

(** [ldap_authenticate.py] is not part of the sources at hand: of
    [LdapAuthenticate] the engine uses the configured domain, the two
    look-up methods, and [login(login_name, password, getInfo,
    additionalCheck)], whose result is a [dict] of user information or an
    error message. *)
Record LdapAuthenticate := mkLdap {
  config_domain : string;
  getInfoByUserPrincipalName : Connection -> string -> PyVal;
  getInfoBySamAccountName : Connection -> string -> PyVal;
  ldap_login : string -> string -> (Connection -> PyVal) -> option AdditionalCheck -> PyVal }.

(** The attributes of an [Authenticate] object.  [encryptor] is the
    [decrypt] method of [self.encryptor], when there is one. *)
Record Authenticate := mkAuthenticate {
  session_configs : SessionStateConfig.t;
  cookie_configs : option CookieConfig.t;
  ldap_auth : LdapAuthenticate;
  encryptor : option (string -> PyVal) }.
End Callables.

Arguments config_domain {Connection} _.
Arguments getInfoByUserPrincipalName {Connection} _ _ _.
Arguments getInfoBySamAccountName {Connection} _ _ _.
Arguments ldap_login {Connection} _ _ _ _ _.
Arguments session_configs {Connection} _.
Arguments cookie_configs {Connection} _.
Arguments ldap_auth {Connection} _.
Arguments encryptor {Connection} _.

(** ** A sample deployment

    Concrete collaborators and worlds on which the properties below are run:
    a directory that knows Alice, a stand-in for PyJWT that verifies three
    tokens signed with the key [secret], and forms whose result is a [dict]
    naming the event. *)
Module Demo.

Definition alice : Dict := [("cn", PStr "Alice"); ("mail", PStr "alice@corp.example.com")].
Definition bob : Dict := [("cn", PStr "Bob")].

(** Cookie [auth], signed with [secret], valid for 30 days, renewed on use. *)
Definition cookie_cfg : CookieConfig.t := CookieConfig.mk "auth" "secret" 30 true 0.25.

Definition session_cfg : SessionStateConfig.t :=
  SessionStateConfig.mk (Some "user") "remember_me" "auth_result".

(** The tokens that verify: Bob's and Alice's, with the expiry date of a
    token issued at the clock reading 1000, and one for Bob whose [exp_date]
    is the integer of the same value. *)
Definition jwt_decode (token key : string) : option PyVal :=
  if negb (String.eqb key "secret") then None
  else if String.eqb token "Bob.jwt"
       then Some (PDict [("user", PDict bob);
                         ("exp_date", PFloat (1000 + timedelta_days 30)%Q)])
  else if String.eqb token "Bob-int.jwt"
       then Some (PDict [("user", PDict bob); ("exp_date", PInt 2593000)])
  else if String.eqb token "Alice.jwt"
       then Some (PDict [("user", PDict alice);
                         ("exp_date", PFloat (1000 + timedelta_days 30)%Q)])
  else None.

(** A token is named after the [cn] of its user. *)
Definition jwt_encode (payload : PyVal) (key : string) : string :=
  match payload with
  | PDict d =>
      match dict_get d "user" with
      | Some (PDict u) =>
          match dict_get u "cn" with
          | Some (PStr cn) => cn +:+ ".jwt"
          | _ => "anonymous.jwt"
          end
      | _ => "anonymous.jwt"
      end
  | _ => "anonymous.jwt"
  end.

Definition getEvent (result : PyVal) : UiEvent :=
  match result with
  | PDict d =>
      match dict_get d "event", dict_get d "username", dict_get d "password",
            dict_get d "remember" with
      | Some (PStr e), Some (PStr u), Some (PStr p), Some r =>
          if String.eqb e "signin" then SigninEvent u p r else OtherEvent
      | Some (PStr e), _, _, _ => if String.eqb e "signout" then SignoutEvent else OtherEvent
      | _, _, _, _ => OtherEvent
      end
  | _ => OtherEvent
  end.

(** The directory of the domain [CORP]: it knows Alice and her password. *)
Definition ldap : LdapAuthenticate unit :=
  mkLdap unit "CORP"
    (fun _ upn => if String.eqb upn "alice@corp.example.com" then PDict alice else PNone)
    (fun _ sam => if String.eqb sam "alice" then PDict alice else PNone)
    (fun login_name password getInfo additionalCheck =>
       if String.eqb login_name "CORP\alice" && String.eqb password "hunter2"
       then getInfo tt
       else PStr "Wrong username or password").

Definition auth : Authenticate unit := mkAuthenticate unit session_cfg (Some cookie_cfg) ldap None.

(** Alice is in the session state; the clock reads 1000. *)
Definition returning : World :=
  mkWorld {["user" := PDict alice]} ∅ 1000 PNone PNone [].

(** The same, a day later. *)
Definition next_day : World :=
  mkWorld {["user" := PDict alice]} ∅ 87400 PNone PNone [].

(** A fresh session; the browser holds Bob's cookie. *)
Definition reloaded : World :=
  mkWorld ∅ {["auth" := PStr "Bob.jwt"]} 1000 PNone PNone [].

(** A fresh session; the browser holds the cookie for Bob whose [exp_date]
    is an integer. *)
Definition reloaded_int : World :=
  mkWorld ∅ {["auth" := PStr "Bob-int.jwt"]} 1000 PNone PNone [].





(** Alice is signed in and submits the sign-out form. *)
Definition signing_out : World :=
  mkWorld {["user" := PDict alice]} ∅ 1000 PNone (PDict [("event", PStr "signout")]) [].

End Demo.

Section Engine.
Context {Connection : Type}.

(** [jwt.encode(payload, key, algorithm='HS256')] and
    [jwt.decode(token, key, algorithms=['HS256'])] of PyJWT; [None] stands
    for any exception [jwt.decode] raises (a signature that does not
    verify, a token that is not a JWT). *)
Variable jwt_encode : PyVal -> string -> string.
Variable jwt_decode : string -> string -> option PyVal.

(** [getEvent] of [streamlit_rsa_auth_ui] *)
Variable getEvent : PyVal -> UiEvent.

Variable self : Authenticate Connection.

(** ** Session state and cookie adapters, token codec *)

(** [st.session_state] takes a key by its [str]: with no user key configured
    ([session_configs.user] is [None]) the slot read is the one named
    [None]. *)
Definition user_slot : string :=
  default "None" (SessionStateConfig.user (session_configs self)).

Definition __getUser : M PyVal :=
  w ← get_world;
  match session_state w !! user_slot with
  | None => mret PNone
  | Some user => mret (if is_dict user then user else PNone)
  end.

Definition __setUser (user : PyVal) : M unit :=
  w ← get_world;
  match SessionStateConfig.user (session_configs self) with
  | None => mret tt
  | Some k => set_session_state (<[k := user]> (session_state w))
  end.

Definition setUserNone : M unit :=
  w ← get_world;
  match SessionStateConfig.user (session_configs self) with
  | None => mret tt
  | Some k => set_session_state (<[k := PNone]> (session_state w))
  end.

Definition __setRememberMe (remember_me : PyVal) : M unit :=
  w ← get_world;
  set_session_state
    (<[SessionStateConfig.remember_me (session_configs self) := remember_me]> (session_state w)).

Definition __getRememberMe : M bool :=
  w ← get_world;
  match session_state w !! SessionStateConfig.remember_me (session_configs self) with
  | Some (PBool remember_me) => mret remember_me
  | _ => __setRememberMe PTrue;; mret true
  end.

Definition __tokenEncode (cookie_configs : CookieConfig.t) (user : PyVal) : M string :=
  w ← get_world;
  let exp_date := (utcnow w + timedelta_days (CookieConfig.expiry_days cookie_configs))%Q in
  mret (jwt_encode (PDict [("user", user); ("exp_date", PFloat exp_date)])
                   (CookieConfig.key cookie_configs)).

(** The body of the [try] of [__tokenDecode]: the user, or the message of
    the exception raised ([now] is the clock reading). *)
Definition __tokenDecode_try (cookie_configs : CookieConfig.t) (token : PyVal) (now : Q)
  : string + PyVal :=
  match token with
  | PNone => inl "No cookie found"
  | PStr token =>
      match jwt_decode token (CookieConfig.key cookie_configs) with
      | None => inl "jwt.decode raised"
      | Some (PDict value) =>
          match dict_get value "exp_date" with
          | None => inl "exp_date is not found"
          | Some (PFloat exp_date) =>
              if Qltb exp_date now then inl "Cookie expired"
              else match dict_get value "user" with
                   | None => inl "user is not found"
                   | Some (PDict user) => inr (PDict user)
                   | Some _ => inl "user is not dict"
                   end
          | Some _ => inl "exp_date is not float"
          end
      | Some _ => inl "Decoded cookie is not dict"
      end
  | _ => inl "Cookie value is expected to be `str`"
  end.

(** [try: ... except Exception as e: print(...); return None] *)
Definition __tokenDecode (cookie_configs : CookieConfig.t) (token : PyVal) : M PyVal :=
  w ← get_world;
  match __tokenDecode_try cookie_configs token (utcnow w) with
  | inr user => mret user
  | inl e => emit (EvPrint ("Token decode error: " +:+ e));; mret PNone
  end.

Definition __getCookie : M PyVal :=
  match cookie_configs self with
  | None => mret PNone
  | Some cfg =>
      emit (EvCookieGet (CookieConfig.name cfg));;
      w ← get_world;
      let token := default PNone (cookies w !! CookieConfig.name cfg) in
      __tokenDecode cfg token
  end.

(** The expiry handed to the cookie controller, [datetime.now()] plus the
    days, is logged as a reading of the world's one clock. *)
Definition __setCookie (user : PyVal) : M unit :=
  match user with
  | PNone => mret tt
  | _ =>
      match cookie_configs self with
      | None => mret tt
      | Some cfg =>
          remember_me ← __getRememberMe;
          if negb remember_me then mret tt
          else
            token ← __tokenEncode cfg user;
            w ← get_world;
            let exp_date := (utcnow w + timedelta_days (CookieConfig.expiry_days cfg))%Q in
            emit (EvCookieSet (CookieConfig.name cfg) token exp_date);;
            set_cookies (<[CookieConfig.name cfg := PStr token]> (cookies w));;
            sleep (CookieConfig.delay_sec cfg)
      end
  end.

Definition __deleteCookie : M unit :=
  match cookie_configs self with
  | None => mret tt
  | Some cfg =>
      emit EvCookieGetAll;;
      w ← get_world;
      match cookies w !! CookieConfig.name cfg with
      | None => mret tt
      | Some _ =>
          emit (EvCookieRemove (CookieConfig.name cfg));;
          set_cookies (delete (CookieConfig.name cfg) (cookies w));;
          sleep (CookieConfig.delay_sec cfg)
      end
  end.

Definition deleteCookie : M unit := __deleteCookie.

(** ** The login form *)

(** [config if type(config) is dict else config.toDict() if
    isinstance(config, ...) else {}] *)
Definition config_dict (config : Config) : Dict :=
  match config with
  | CfgDict d => d
  | CfgObject d => d
  | CfgNone => []
  end.

(** [str] values pass, anything else becomes [None] *)
Definition str_or_none (v : option PyVal) : PyVal :=
  match v with
  | Some (PStr s) => PStr s
  | _ => PNone
  end.

Definition __getLoginConfig (config : Config) : Dict * string * PyVal :=
  let config := config_dict config in
  let config :=
    match cookie_configs self, dict_get config "remember" with
    | Some _, None => dict_set config "remember" (PDict [])
    | _, _ => config
    end in
  let busy_message := dict_get config "busy_message" in
  let config := dict_pop config "busy_message" in
  let busy_message :=
    match busy_message with
    | Some (PStr m) => m
    | _ => "Вход в систему..."
    end in
  let error_icon := dict_get config "error_icon" in
  let config := dict_pop config "error_icon" in
  let error_icon := str_or_none error_icon in
  (config, busy_message, error_icon).

(** [del ss[k]] *)
Definition del_session_state (k : string) : M unit :=
  w ← get_world;
  match session_state w !! k with
  | None => raise (KeyError k)
  | Some _ => set_session_state (delete k (session_state w))
  end.

(** [st.rerun()] *)
Definition rerun {A} : M A := emit EvRerun;; raise RerunException.

(** *** Default decoding of the login name and retrieval of the user *)

Definition getInfo (conn : Connection) (username : string) : PyVal :=
  match re_match RegexEmail username with
  | Some _ => getInfoByUserPrincipalName (ldap_auth self) conn username
  | None =>
      let groups := re_match RegexDomain username in
      let name := match groups with None => username | Some g => group g 2 end in
      getInfoBySamAccountName (ldap_auth self) conn name
  end.

Definition getLoginUserName (username : string) : string :=
  match re_match RegexEmail username with
  | Some _ => username
  | None =>
      let groups := re_match RegexDomain username in
      let domain := match groups with None => config_domain (ldap_auth self) | Some g => group g 1 end in
      let name := match groups with None => username | Some g => group g 2 end in
      domain +:+ "\" +:+ name
  end.

(** [callback(result)], whose [str] result replaces [result] *)
Definition run_callback (callback : option (PyVal -> PyVal)) (result : PyVal) : M PyVal :=
  match callback with
  | None => mret result
  | Some cb =>
      emit (EvCallback result);;
      let callbackResult := cb result in
      mret (if is_str callbackResult then callbackResult else result)
  end.

(** [if self.encryptor is not None and type(result) is str:
    result = self.encryptor.decrypt(result)] *)
Definition decrypt_result (result : PyVal) : M PyVal :=
  match encryptor self, result with
  | Some decrypt, PStr payload => emit (EvDecrypt payload);; mret (decrypt payload)
  | _, _ => mret result
  end.

(** [st.spinner] only shows [busy_message] while its block runs. *)
Definition __createLoginForm
  (additionalCheck : option (AdditionalCheck Connection))
  (getLoginUserName' : option (string -> string))
  (getInfo' : option (Connection -> string -> PyVal))
  (config : Config)
  (callback : option (PyVal -> PyVal)) : M PyVal :=
  let getInfo := default getInfo getInfo' in
  let getLoginUserName := default getLoginUserName getLoginUserName' in
  default ← match cookie_configs self with
            | Some _ => remember ← __getRememberMe; mret (PDict [("remember", PBool remember)])
            | None => mret PNone
            end;
  let '(config, busy_message, error_icon) := __getLoginConfig config in
  (* Create form *)
  emit (EvSigninForm default config);;
  w ← get_world;
  match signin_result w with
  | PNone => mret PNone
  | result =>
      result ← decrypt_result result;
      match getEvent result with
      | SigninEvent username password remember =>
          __setRememberMe remember;;
          let login_name := getLoginUserName username in
          emit (EvLdapLogin login_name password);;
          let result :=
            ldap_login (ldap_auth self) login_name password
                       (fun conn => getInfo conn username) additionalCheck in
          result ← run_callback callback result;
          match result with
          | PStr _ => emit (EvError result);; mret PNone
          | PDict _ =>
              del_session_state (SessionStateConfig.auth_result (session_configs self));;
              mret result
          | _ => emit (EvErrorUnexpected result);; mret PNone
          end
      | _ => mret PNone
      end
  end.

(** ** Reauthentication and [login] *)

(** [if self.cookie_configs is not None and self.cookie_configs.auto_renewal:
    self.__setCookie(user)] *)
Definition renew_cookie (user : PyVal) : M unit :=
  match cookie_configs self with
  | Some cfg => if CookieConfig.auto_renewal cfg then __setCookie user else mret tt
  | None => mret tt
  end.

Definition __checkReauthentication
  (user : PyVal) (additionalCheck : option (AdditionalCheck Connection)) : M bool :=
  if negb (is_dict user) then mret false
  else
    match additionalCheck with
    | None => renew_cookie user;; mret true  (* No additional check is required *)
    | Some check =>
        emit (EvAdditionalCheck user);;
        let result := check None user in
        if negb (py_eq_True result) then mret false
        else renew_cookie user;; mret true
    end.

Definition login
  (additionalCheck : option (AdditionalCheck Connection))
  (getLoginUserName' : option (string -> string))
  (getInfo' : option (Connection -> string -> PyVal))
  (config : Config)
  (callback : option (PyVal -> PyVal)) : M PyVal :=
  (* check user authentication if it is found in streamlit session_state *)
  user ← __getUser;
  ok ← __checkReauthentication user additionalCheck;
  if ok : bool then mret user
  else
    (* check user authentication if it is found cookie in client's browser *)
    user ← __getCookie;
    ok ← __checkReauthentication user additionalCheck;
    if ok : bool then __setUser user;; mret user
    else
      sleep 0.5;;
      (* ask user to log in *)
      user ← __createLoginForm additionalCheck getLoginUserName' getInfo' config callback;
      if negb (is_dict user) then mret PNone
      else
        __setUser user;;
        __setCookie user;;
        try_finally (mret user) rerun.

(** ** The logout form *)

Definition __getLogoutConfig (config : Config) : Dict * string * Q :=
  let config := config_dict config in
  (* For backward compatibility *)
  let config :=
    match dict_get config "title", dict_get config "message" with
    | None, Some message =>
        let config := dict_pop config "message" in
        match message with
        | PStr _ => dict_set config "title" (PDict [("text", message)])
        | _ => config
        end
    | _, _ => config
    end in
  let busy_message := dict_get config "busy_message" in
  let config := dict_pop config "busy_message" in
  let busy_message :=
    match busy_message with
    | Some (PStr m) => m
    | _ => "Logging out..."
    end in
  let sleep_sec := dict_get config "sleep_sec" in
  let config := dict_pop config "sleep_sec" in
  let sleep_sec :=
    match sleep_sec with
    | Some (PFloat s) => s
    | _ => 1%Q
    end in
  (config, busy_message, sleep_sec).

Definition createLogoutForm (config : Config) (callback : option (UiEvent -> PyVal)) : M unit :=
  let '(config, busy_message, sleep_sec) := __getLogoutConfig config in
  (* Create form *)
  emit (EvSignoutForm config);;
  w ← get_world;
  match signout_result w with
  | PNone => mret tt
  | result =>
      result ← decrypt_result result;
      match getEvent result with
      | SignoutEvent =>
          cancelled ← match callback with
                      | None => mret false
                      | Some cb =>
                          emit EvSignoutCallback;;
                          mret (py_eq_str (cb SignoutEvent) "cancel")
                      end;
          if cancelled : bool then mret tt
          else
            __setUser PNone;;
            __deleteCookie;;
            (* give sometime for the browser cookie to get deleted *)
            sleep sleep_sec;;
            rerun
      | _ => mret tt
      end
  end.

(** * Properties *)

(** ** Traces *)

(** The world after the calls [evs], nothing else changed. *)
Definition logs (evs : list Event) (w : World) : World :=
  mkWorld (session_state w) (cookies w) (utcnow w) (signin_result w) (signout_result w)
          (trace w ++ evs).

Lemma log_logs e w : log e w = logs [e] w.
Proof. reflexivity. Qed.

Lemma logs_logs evs1 evs2 w : logs evs2 (logs evs1 w) = logs (evs1 ++ evs2) w.
Proof. unfold logs; simpl. by rewrite app_assoc. Qed.

Lemma logs_nil w : logs [] w = w.
Proof. destruct w; unfold logs; simpl. by rewrite app_nil_r. Qed.

Definition is_rerun (e : Event) : bool :=
  match e with EvRerun => true | _ => false end.

Definition is_cookie_read (e : Event) : bool :=
  match e with EvCookieGet _ | EvCookieGetAll => true | _ => false end.

Definition is_cookie_write (e : Event) : bool :=
  match e with EvCookieSet _ _ _ | EvCookieRemove _ => true | _ => false end.

Definition is_directory (e : Event) : bool :=
  match e with EvLdapLogin _ _ => true | _ => false end.

(** What a form's result is taken for, after the optional decryption. *)
Definition decrypted (result : PyVal) : PyVal :=
  match encryptor self, result with
  | Some decrypt, PStr payload => decrypt payload
  | _, _ => result
  end.

Definition decrypt_events (result : PyVal) : list Event :=
  match encryptor self, result with
  | Some _, PStr payload => [EvDecrypt payload]
  | _, _ => []
  end.

(** The event a form's result stands for; [None] when nothing was submitted. *)
Definition submitted (result : PyVal) : option UiEvent :=
  match result with
  | PNone => None
  | _ => Some (getEvent (decrypted result))
  end.

Ltac mstep :=
  unfold mbind, M_bind, mret, M_ret, get_world, emit, set_session_state, set_cookies; simpl.

Lemma decrypt_result_run result w :
  decrypt_result result w = (Ret (decrypted result), logs (decrypt_events result) w).
Proof.
  unfold decrypt_result, decrypted, decrypt_events.
  destruct (encryptor self), result; mstep; rewrite ?log_logs, ?logs_nil; reflexivity.
Qed.

(** ** The adapters, run *)

Abbreviation user_key := (SessionStateConfig.user (session_configs self)).
Abbreviation remember_key := (SessionStateConfig.remember_me (session_configs self)).
Abbreviation auth_result_key := (SessionStateConfig.auth_result (session_configs self)).

(** What [__getUser] reads. *)
Definition session_user (w : World) : PyVal :=
  match session_state w !! user_slot with
  | Some (PDict d) => PDict d
  | _ => PNone
  end.

Lemma user_slot_key k : user_key = Some k -> user_slot = k.
Proof. intros Hk. unfold user_slot. by rewrite Hk. Qed.

Lemma __getUser_run w : __getUser w = (Ret (session_user w), w).
Proof.
  unfold __getUser, session_user. mstep.
  destruct (session_state w !! user_slot) as [[]|]; reflexivity.
Qed.

Lemma __setUser_run k user w :
  user_key = Some k ->
  __setUser user w = (Ret tt, with_session_state (<[k := user]> (session_state w)) w).
Proof. intros Hk. unfold __setUser. mstep. by rewrite Hk. Qed.

(** The remember flag as [__getRememberMe] reports it, and the world it
    leaves: a slot that holds no [bool] is set to [True]. *)
Definition remember_flag (w : World) : bool :=
  match session_state w !! remember_key with
  | Some (PBool b) => b
  | _ => true
  end.

Definition remember_settled (w : World) : World :=
  match session_state w !! remember_key with
  | Some (PBool _) => w
  | _ => with_session_state (<[remember_key := PTrue]> (session_state w)) w
  end.

Lemma __getRememberMe_run w : __getRememberMe w = (Ret (remember_flag w), remember_settled w).
Proof.
  unfold __getRememberMe, __setRememberMe, remember_flag, remember_settled. mstep.
  destruct (session_state w !! remember_key) as [[]|]; reflexivity.
Qed.

Lemma remember_flag_false w :
  remember_flag w = false <-> session_state w !! remember_key = Some PFalse.
Proof.
  unfold remember_flag.
  destruct (session_state w !! remember_key) as [[| [] | | | | |]|]; split; congruence.
Qed.

Lemma remember_settled_false w : remember_flag w = false -> remember_settled w = w.
Proof.
  rewrite remember_flag_false. unfold remember_settled. by intros ->.
Qed.

(** The token [__tokenEncode] issues at the clock reading [now]. *)
Definition issued_token (cfg : CookieConfig.t) (user : PyVal) (now : Q) : string :=
  jwt_encode
    (PDict [("user", user);
            ("exp_date", PFloat (now + timedelta_days (CookieConfig.expiry_days cfg))%Q)])
    (CookieConfig.key cfg).

Lemma __tokenEncode_run cfg user w :
  __tokenEncode cfg user w = (Ret (issued_token cfg user (utcnow w)), w).
Proof. reflexivity. Qed.

(** The world after [__setCookie] has written the cookie. *)
Definition cookie_written (cfg : CookieConfig.t) (user : PyVal) (w : World) : World :=
  let w1 := remember_settled w in
  let token := issued_token cfg user (utcnow w) in
  let expires := (utcnow w + timedelta_days (CookieConfig.expiry_days cfg))%Q in
  slept (CookieConfig.delay_sec cfg)
    (with_cookies (<[CookieConfig.name cfg := PStr token]> (cookies w))
       (log (EvCookieSet (CookieConfig.name cfg) token expires) w1)).

Lemma utcnow_remember_settled w : utcnow (remember_settled w) = utcnow w.
Proof. unfold remember_settled. by destruct (session_state w !! remember_key) as [[]|]. Qed.

Lemma cookies_remember_settled w : cookies (remember_settled w) = cookies w.
Proof. unfold remember_settled. by destruct (session_state w !! remember_key) as [[]|]. Qed.

Lemma trace_remember_settled w : trace (remember_settled w) = trace w.
Proof. unfold remember_settled. by destruct (session_state w !! remember_key) as [[]|]. Qed.

Lemma sleep_run sec w : (0 <= sec)%Q -> sleep sec w = (Ret tt, slept sec w).
Proof. intros H. unfold sleep. apply Qltb_ge in H. by rewrite H. Qed.


Lemma __setCookie_forget cfg user w :
  cookie_configs self = Some cfg ->
  session_state w !! remember_key = Some PFalse ->
  __setCookie user w = (Ret tt, w).
Proof.
  intros Hcfg Hrm. unfold __setCookie. rewrite Hcfg.
  apply remember_flag_false in Hrm.
  destruct user; try reflexivity; mstep;
    by rewrite __getRememberMe_run, Hrm, remember_settled_false.
Qed.

Lemma __setCookie_remember cfg user w :
  cookie_configs self = Some cfg ->
  user <> PNone ->
  session_state w !! remember_key <> Some PFalse ->
  (0 <= CookieConfig.delay_sec cfg)%Q ->
  __setCookie user w = (Ret tt, cookie_written cfg user w).
Proof.
  intros Hcfg Hu Hrm Hd. unfold __setCookie. rewrite Hcfg.
  assert (remember_flag w = true) as Hflag.
  { destruct (remember_flag w) eqn:E; [done|]. by apply remember_flag_false in E. }
  destruct user; try congruence; mstep;
    rewrite __getRememberMe_run, Hflag; simpl;
    unfold __tokenEncode; mstep; rewrite sleep_run by (simpl; exact Hd);
    unfold cookie_written; simpl;
    by rewrite ?utcnow_remember_settled, ?cookies_remember_settled.
Qed.

(** What [__tokenDecode] returns at the clock reading [now], and what it
    prints. *)
Definition decoded (cfg : CookieConfig.t) (token : PyVal) (now : Q) : PyVal :=
  match __tokenDecode_try cfg token now with
  | inr user => user
  | inl _ => PNone
  end.

Definition decode_prints (cfg : CookieConfig.t) (token : PyVal) (now : Q) : list Event :=
  match __tokenDecode_try cfg token now with
  | inr _ => []
  | inl e => [EvPrint ("Token decode error: " +:+ e)]
  end.

Lemma __tokenDecode_run cfg token w :
  __tokenDecode cfg token w
  = (Ret (decoded cfg token (utcnow w)), logs (decode_prints cfg token (utcnow w)) w).
Proof.
  unfold __tokenDecode, decoded, decode_prints. mstep.
  destruct (__tokenDecode_try cfg token (utcnow w)); by rewrite ?logs_nil.
Qed.

(** The candidate [__getCookie] finds, and the calls it makes. *)
Definition cookie_token (cfg : CookieConfig.t) (w : World) : PyVal :=
  default PNone (cookies w !! CookieConfig.name cfg).

Definition cookie_user (w : World) : PyVal :=
  match cookie_configs self with
  | None => PNone
  | Some cfg => decoded cfg (cookie_token cfg w) (utcnow w)
  end.

Definition cookie_read_events (w : World) : list Event :=
  match cookie_configs self with
  | None => []
  | Some cfg =>
      EvCookieGet (CookieConfig.name cfg) :: decode_prints cfg (cookie_token cfg w) (utcnow w)
  end.

Lemma __getCookie_run w :
  __getCookie w = (Ret (cookie_user w), logs (cookie_read_events w) w).
Proof.
  unfold __getCookie, cookie_user, cookie_read_events.
  destruct (cookie_configs self) as [cfg|]; [|by rewrite logs_nil].
  mstep. rewrite __tokenDecode_run. simpl. by rewrite log_logs, logs_logs.
Qed.

(** *** The reauthentication check *)

(** Every configured delay is one [time.sleep] accepts. *)
Definition delay_ok : Prop :=
  forall cfg, cookie_configs self = Some cfg -> (0 <= CookieConfig.delay_sec cfg)%Q.

(** The world after the renewal that follows an accepted candidate. *)
Definition renewed (user : PyVal) (w : World) : World :=
  match cookie_configs self with
  | Some cfg =>
      if CookieConfig.auto_renewal cfg && remember_flag w then cookie_written cfg user w else w
  | None => w
  end.

Lemma renew_cookie_run user w :
  is_dict user = true -> delay_ok -> renew_cookie user w = (Ret tt, renewed user w).
Proof.
  intros Hu Hd. unfold renew_cookie, renewed.
  destruct (cookie_configs self) as [cfg|] eqn:Hcfg; [|reflexivity].
  destruct (CookieConfig.auto_renewal cfg); [|reflexivity]. simpl.
  destruct (remember_flag w) eqn:Hflag.
  - apply __setCookie_remember; [done| by destruct user | | by apply Hd].
    intros E. apply remember_flag_false in E. congruence.
  - apply remember_flag_false in Hflag. by eapply __setCookie_forget.
Qed.

(** Whether the additional check, when there is one, lets [user] pass, and
    the call made to find out. *)
Definition check_accepts (additionalCheck : option (AdditionalCheck Connection)) (user : PyVal)
  : bool :=
  match additionalCheck with
  | None => true
  | Some check => py_eq_True (check None user)
  end.

Definition check_events (additionalCheck : option (AdditionalCheck Connection)) (user : PyVal)
  : list Event :=
  match additionalCheck with
  | None => []
  | Some _ => if is_dict user then [EvAdditionalCheck user] else []
  end.

Lemma __checkReauthentication_reject user additionalCheck w :
  is_dict user && check_accepts additionalCheck user = false ->
  __checkReauthentication user additionalCheck w
  = (Ret false, logs (check_events additionalCheck user) w).
Proof.
  intros H. unfold __checkReauthentication, check_events.
  destruct (is_dict user); simpl in *.
  - destruct additionalCheck as [check|]; [|discriminate]. simpl in H.
    mstep. by rewrite H.
  - by destruct additionalCheck; rewrite logs_nil.
Qed.

Lemma __checkReauthentication_accept user additionalCheck w :
  is_dict user = true ->
  check_accepts additionalCheck user = true ->
  delay_ok ->
  __checkReauthentication user additionalCheck w
  = (Ret true, renewed user (logs (check_events additionalCheck user) w)).
Proof.
  intros Hu Hacc Hd. unfold __checkReauthentication, check_events. rewrite Hu. simpl.
  destruct additionalCheck as [check|]; simpl in Hacc; mstep.
  - rewrite Hacc. simpl. by rewrite renew_cookie_run.
  - by rewrite renew_cookie_run, logs_nil.
Qed.

(** *** The stages of [login] *)

(** The statements of [login] that follow the session check. *)
Definition login_after_session
  (additionalCheck : option (AdditionalCheck Connection))
  (getLoginUserName' : option (string -> string))
  (getInfo' : option (Connection -> string -> PyVal))
  (config : Config)
  (callback : option (PyVal -> PyVal)) : M PyVal :=
  user ← __getCookie;
  ok ← __checkReauthentication user additionalCheck;
  if ok : bool then __setUser user;; mret user
  else
    sleep 0.5;;
    user ← __createLoginForm additionalCheck getLoginUserName' getInfo' config callback;
    if negb (is_dict user) then mret PNone
    else
      __setUser user;;
      __setCookie user;;
      try_finally (mret user) rerun.

Lemma login_stages additionalCheck gl gi config callback :
  login additionalCheck gl gi config callback
  = (user ← __getUser;
     ok ← __checkReauthentication user additionalCheck;
     if ok : bool then mret user
     else login_after_session additionalCheck gl gi config callback).
Proof. reflexivity. Qed.

Lemma login_session_accept additionalCheck gl gi config callback w :
  is_dict (session_user w) = true ->
  check_accepts additionalCheck (session_user w) = true ->
  delay_ok ->
  login additionalCheck gl gi config callback w
  = (Ret (session_user w),
     renewed (session_user w) (logs (check_events additionalCheck (session_user w)) w)).
Proof.
  intros Hu Hacc Hd. unfold login. unfold mbind at 1, M_bind at 1.
  rewrite __getUser_run. unfold mbind at 1, M_bind at 1.
  by rewrite __checkReauthentication_accept.
Qed.

Lemma login_session_reject additionalCheck gl gi config callback w :
  is_dict (session_user w) && check_accepts additionalCheck (session_user w) = false ->
  login additionalCheck gl gi config callback w
  = login_after_session additionalCheck gl gi config callback
      (logs (check_events additionalCheck (session_user w)) w).
Proof.
  intros H. rewrite login_stages. unfold mbind at 1, M_bind at 1.
  rewrite __getUser_run. unfold mbind at 1, M_bind at 1.
  by rewrite __checkReauthentication_reject.
Qed.

Lemma login_cookie_accept additionalCheck gl gi config callback k w :
  user_key = Some k ->
  is_dict (cookie_user w) = true ->
  check_accepts additionalCheck (cookie_user w) = true ->
  delay_ok ->
  login_after_session additionalCheck gl gi config callback w
  = (Ret (cookie_user w),
     let w' := renewed (cookie_user w)
                 (logs (cookie_read_events w ++ check_events additionalCheck (cookie_user w)) w) in
     with_session_state (<[k := cookie_user w]> (session_state w')) w').
Proof.
  intros Hk Hu Hacc Hd. unfold login_after_session. unfold mbind at 1, M_bind at 1.
  rewrite __getCookie_run. unfold mbind at 1, M_bind at 1.
  rewrite __checkReauthentication_accept by done.
  unfold mbind, M_bind. rewrite (__setUser_run k) by done.
  by rewrite logs_logs.
Qed.

(** *** The login form, submitted with good credentials *)

Definition form_default (w : World) : PyVal :=
  match cookie_configs self with
  | Some _ => PDict [("remember", PBool (remember_flag w))]
  | None => PNone
  end.

Definition form_opened (w : World) : World :=
  match cookie_configs self with
  | Some _ => remember_settled w
  | None => w
  end.

Definition callback_events {A} (callback : option A) (arg : PyVal) : list Event :=
  match callback with
  | None => []
  | Some _ => [EvCallback arg]
  end.

(** The callback, when there is one, lets the result stand. *)
Definition callback_passes (callback : option (PyVal -> PyVal)) (result : PyVal) : Prop :=
  forall cb, callback = Some cb -> is_str (cb result) = false.

Lemma run_callback_pass callback result w :
  callback_passes callback result ->
  run_callback callback result w = (Ret result, logs (callback_events callback result) w).
Proof.
  intros H. unfold run_callback, callback_events.
  destruct callback as [cb|]; [|by rewrite logs_nil].
  mstep. by rewrite (H cb eq_refl).
Qed.

Lemma utcnow_form_opened w : utcnow (form_opened w) = utcnow w.
Proof. unfold form_opened. destruct (cookie_configs self); by rewrite ?utcnow_remember_settled. Qed.

Lemma cookies_form_opened w : cookies (form_opened w) = cookies w.
Proof. unfold form_opened. destruct (cookie_configs self); by rewrite ?cookies_remember_settled. Qed.

Lemma trace_form_opened w : trace (form_opened w) = trace w.
Proof. unfold form_opened. destruct (cookie_configs self); by rewrite ?trace_remember_settled. Qed.

Lemma signin_result_form_opened w : signin_result (form_opened w) = signin_result w.
Proof.
  unfold form_opened, remember_settled.
  destruct (cookie_configs self); [|done].
  by destruct (session_state w !! remember_key) as [[]|].
Qed.

Lemma session_state_form_opened w j :
  j <> remember_key -> session_state (form_opened w) !! j = session_state w !! j.
Proof.
  intros Hj. unfold form_opened, remember_settled.
  destruct (cookie_configs self); [|done].
  destruct (session_state w !! remember_key) as [[]|]; simpl; by rewrite ?lookup_insert_ne.
Qed.

Lemma session_state_form_opened_is_Some w j :
  is_Some (session_state w !! j) -> is_Some (session_state (form_opened w) !! j).
Proof.
  intros H. destruct (decide (j = remember_key)) as [->|Hne].
  - unfold form_opened, remember_settled.
    destruct (cookie_configs self); [|done].
    destruct (session_state w !! remember_key) as [[]|] eqn:E; simpl;
      rewrite ?lookup_insert_eq, ?E; eauto.
  - by rewrite session_state_form_opened.
Qed.

(** The calls of the form, from its display to the callback. *)
Definition form_events
  (config : Config) (callback : option (PyVal -> PyVal)) (w : World)
  (login_name password : string) (result : PyVal) : list Event :=
  [EvSigninForm (form_default w) (__getLoginConfig config).1.1]
    ++ decrypt_events (signin_result w)
    ++ [EvLdapLogin login_name password]
    ++ callback_events callback result.

Lemma __createLoginForm_success additionalCheck gl gi config callback w
    username password remember u :
  submitted (signin_result w) = Some (SigninEvent username password remember) ->
  ldap_login (ldap_auth self) (default getLoginUserName gl username) password
             (fun conn => default getInfo gi conn username) additionalCheck = PDict u ->
  callback_passes callback (PDict u) ->
  is_Some (session_state w !! auth_result_key) ->
  __createLoginForm additionalCheck gl gi config callback w
  = (Ret (PDict u),
     with_session_state
       (delete auth_result_key (<[remember_key := remember]> (session_state (form_opened w))))
       (logs (form_events config callback w (default getLoginUserName gl username) password
                          (PDict u))
             (form_opened w))).
Proof.
  intros Hsub Hldap Hcb Har. unfold __createLoginForm, form_events.
  assert ((match cookie_configs self with
           | Some _ => remember ← __getRememberMe; mret (PDict [("remember", PBool remember)])
           | None => mret PNone
           end : M PyVal) w = (Ret (form_default w), form_opened w)) as Hdef.
  { unfold form_default, form_opened. destruct (cookie_configs self); [|done].
    unfold mbind, M_bind. by rewrite __getRememberMe_run. }
  unfold mbind at 1, M_bind at 1. rewrite Hdef. clear Hdef.
  destruct (__getLoginConfig config) as [[cfg busy] icon]. simpl fst.
  mstep. rewrite signin_result_form_opened.
  unfold submitted in Hsub.
  assert (is_Some (<[remember_key := remember]> (session_state (form_opened w)) !! auth_result_key))
    as [v Hv].
  { destruct (decide (remember_key = auth_result_key)) as [E|E].
    - rewrite E, lookup_insert_eq. eauto.
    - rewrite lookup_insert_ne by done. by apply session_state_form_opened_is_Some. }
  destruct (signin_result w) eqn:Hres; try discriminate;
    injection Hsub as Hsub; rewrite decrypt_result_run, Hsub; mstep;
    unfold __setRememberMe; mstep; rewrite Hldap;
    rewrite run_callback_pass by done; simpl;
    unfold del_session_state; mstep; rewrite Hv; mstep;
    unfold logs, with_session_state; simpl;
    by rewrite <- !app_assoc.
Qed.

(** ** Events of a kind *)

Definition calls_outside (e : Event) : bool :=
  is_directory e || is_cookie_read e || is_cookie_write e.

Lemma forallb_weaken {A} (p q : A -> bool) (l : list A) :
  (forall x, p x = true -> q x = true) -> forallb p l = true -> forallb q l = true.
Proof. rewrite !forallb_forall. auto. Qed.

Lemma no_directory_decode_prints cfg token now :
  forallb (fun e => negb (is_directory e)) (decode_prints cfg token now) = true.
Proof. unfold decode_prints. by destruct (__tokenDecode_try cfg token now). Qed.

Lemma no_directory_cookie_read w :
  forallb (fun e => negb (is_directory e)) (cookie_read_events w) = true.
Proof.
  unfold cookie_read_events. destruct (cookie_configs self); [|done].
  simpl. apply no_directory_decode_prints.
Qed.

Lemma no_directory_check ac user :
  forallb (fun e => negb (is_directory e)) (check_events ac user) = true.
Proof. unfold check_events. by destruct ac, (is_dict user). Qed.

(** The calls of a renewal: the cookie is written, never read. *)
Definition renewal_events (user : PyVal) (w : World) : list Event :=
  match cookie_configs self with
  | Some cfg =>
      if CookieConfig.auto_renewal cfg && remember_flag w
      then [EvCookieSet (CookieConfig.name cfg) (issued_token cfg user (utcnow w))
                        (utcnow w + timedelta_days (CookieConfig.expiry_days cfg))%Q;
            EvSleep (CookieConfig.delay_sec cfg)]
      else []
  | None => []
  end.

Lemma trace_renewed user w : trace (renewed user w) = trace w ++ renewal_events user w.
Proof.
  unfold renewed, renewal_events.
  destruct (cookie_configs self) as [cfg|]; [|by rewrite app_nil_r].
  destruct (CookieConfig.auto_renewal cfg && remember_flag w); [|by rewrite app_nil_r].
  unfold cookie_written. simpl. by rewrite trace_remember_settled, <- app_assoc.
Qed.

Lemma renewal_events_quiet user w :
  forallb (fun e => negb (is_directory e || is_cookie_read e)) (renewal_events user w) = true.
Proof.
  unfold renewal_events. destruct (cookie_configs self) as [cfg|]; [|done].
  by destruct (CookieConfig.auto_renewal cfg && remember_flag w).
Qed.

Lemma session_user_dict k d w :
  user_key = Some k -> session_state w !! k = Some (PDict d) -> session_user w = PDict d.
Proof. intros Hk Hs. unfold session_user. by rewrite (user_slot_key k Hk), Hs. Qed.

Lemma session_user_empty k w :
  user_key = Some k ->
  session_state w !! k = None \/ session_state w !! k = Some PNone ->
  session_user w = PNone.
Proof. intros Hk [Hs|Hs]; unfold session_user; by rewrite (user_slot_key k Hk), Hs. Qed.

(** ** The claims *)

(** C2 (as amended): in the reauthentication check, a result of the
    additional check that is neither [True] nor one of the numbers [1] and
    [1.0], which Python's [!=] does not tell from [True], rejects the
    candidate whatever it holds: the check returns [False], and nothing is
    done but the call of the additional check (no cookie is renewed). *)
Theorem additionalCheck_other_than_True_rejects
    (check : AdditionalCheck Connection) (d : Dict) (w : World) :
  check None (PDict d) <> PTrue ->
  check None (PDict d) <> PInt 1 ->
  (forall q, check None (PDict d) = PFloat q -> ~ (q == 1)%Q) ->
  __checkReauthentication (PDict d) (Some check) w
  = (Ret false, log (EvAdditionalCheck (PDict d)) w).
Proof.
  intros HT HI HF.
  rewrite __checkReauthentication_reject; [done|]. simpl.
  destruct (check None (PDict d)) as [| [] | z | q | | |] eqn:E; simpl; try done.
  - apply Z.eqb_neq. congruence.
  - apply not_true_iff_false. rewrite Qeq_bool_iff. by apply HF.
Qed.


(** C5 (as amended): when the session state holds a user and no additional
    check is configured, [login] returns that user without calling the
    directory and without reading the cookie.  The cookie is written again
    when, and only when, cookies are configured with auto-renewal and the
    remember flag is not [False]; otherwise nothing at all is done. *)
Theorem login_session_fast_path gl gi config callback k d (w : World) :
  user_key = Some k ->
  session_state w !! k = Some (PDict d) ->
  delay_ok ->
  exists w' evs,
    login None gl gi config callback w = (Ret (PDict d), w')
    /\ trace w' = trace w ++ evs
    /\ forallb (fun e => negb (is_directory e || is_cookie_read e)) evs = true
    /\ (forall cfg,
          cookie_configs self = Some cfg ->
          CookieConfig.auto_renewal cfg = true ->
          session_state w !! remember_key <> Some PFalse ->
          w' = cookie_written cfg (PDict d) w
          /\ cookies w' !! CookieConfig.name cfg
             = Some (PStr (issued_token cfg (PDict d) (utcnow w))))
    /\ (cookie_configs self = None
        \/ (exists cfg, cookie_configs self = Some cfg /\ CookieConfig.auto_renewal cfg = false)
        \/ session_state w !! remember_key = Some PFalse ->
        w' = w /\ evs = []).
Proof.
  intros Hk Hs Hd.
  pose proof (session_user_dict k d w Hk Hs) as Hu.
  exists (renewed (PDict d) w), (renewal_events (PDict d) w).
  split; [|split; [|split; [|split]]].
  - rewrite login_session_accept; rewrite ?Hu; try done. simpl. by rewrite logs_nil.
  - apply trace_renewed.
  - apply renewal_events_quiet.
  - intros cfg Hcfg Hauto Hrm. unfold renewed. rewrite Hcfg, Hauto.
    assert (remember_flag w = true) as ->.
    { destruct (remember_flag w) eqn:E; [done|]. by apply remember_flag_false in E. }
    split; [done|]. unfold cookie_written. simpl. by rewrite lookup_insert_eq.
  - intros H. unfold renewed, renewal_events.
    destruct H as [-> | [(cfg & -> & ->) | Hrm]]; [done | done |].
    apply remember_flag_false in Hrm. rewrite Hrm.
    destruct (cookie_configs self) as [cfg|]; [|done]. by rewrite andb_false_r.
Qed.

(** What [__tokenDecode] makes of a signed token that has not expired. *)
Lemma decoded_valid cfg tok payload e u now :
  jwt_decode tok (CookieConfig.key cfg) = Some (PDict payload) ->
  dict_get payload "exp_date" = Some (PFloat e) ->
  (now <= e)%Q ->
  dict_get payload "user" = Some (PDict u) ->
  decoded cfg (PStr tok) now = PDict u.
Proof.
  intros Hjwt He Hnow Hu. unfold decoded, __tokenDecode_try.
  apply Qltb_ge in Hnow. by rewrite Hjwt, He, Hnow, Hu.
Qed.

(** C6: with an empty user slot in the session state and a cookie that holds
    a correctly signed token whose [exp_date] is a [float] that lies in the
    future, and whose user is a [dict] the additional check lets pass,
    [login] returns the user of the token and stores it in the user slot of
    the session state; the directory is not called. *)
Theorem login_from_cookie
    additionalCheck gl gi config callback k cfg tok payload e u (w : World) :
  user_key = Some k ->
  session_state w !! k = None \/ session_state w !! k = Some PNone ->
  cookie_configs self = Some cfg ->
  cookies w !! CookieConfig.name cfg = Some (PStr tok) ->
  jwt_decode tok (CookieConfig.key cfg) = Some (PDict payload) ->
  dict_get payload "exp_date" = Some (PFloat e) ->
  (utcnow w < e)%Q ->
  dict_get payload "user" = Some (PDict u) ->
  check_accepts additionalCheck (PDict u) = true ->
  (0 <= CookieConfig.delay_sec cfg)%Q ->
  exists w' evs,
    login additionalCheck gl gi config callback w = (Ret (PDict u), w')
    /\ session_state w' !! k = Some (PDict u)
    /\ trace w' = trace w ++ evs
    /\ forallb (fun e => negb (is_directory e)) evs = true.
Proof.
  intros Hk Hs Hcfg Hck Hjwt He Hnow Hu Hacc Hdelay.
  assert delay_ok as Hd by (intros cfg' E; congruence).
  pose proof (session_user_empty k w Hk Hs) as Hsu.
  assert (cookie_user w = PDict u) as Hcu.
  { unfold cookie_user, cookie_token. rewrite Hcfg, Hck. simpl.
    eapply decoded_valid; eauto. by apply Qlt_le_weak. }
  rewrite login_session_reject by (by rewrite Hsu).
  rewrite Hsu. replace (check_events additionalCheck PNone) with (@nil Event)
    by (by destruct additionalCheck).
  rewrite logs_nil.
  rewrite (login_cookie_accept _ _ _ _ _ k) by (rewrite ?Hcu; done).
  rewrite Hcu. simpl.
  eexists _, _. split; [reflexivity|]. split; [|split].
  - simpl. by rewrite lookup_insert_eq.
  - simpl. rewrite trace_renewed. simpl. rewrite <- app_assoc. reflexivity.
  - rewrite !forallb_app. rewrite no_directory_cookie_read, no_directory_check. simpl.
    eapply forallb_weaken; [|apply renewal_events_quiet].
    intros ev. simpl. by destruct (is_directory ev).
Qed.

(** *** A fresh login through the form *)

Lemma cookie_user_empty w :
  (forall cfg, cookie_configs self = Some cfg -> cookies w !! CookieConfig.name cfg = None) ->
  cookie_user w = PNone.
Proof.
  intros H. unfold cookie_user, cookie_token.
  destruct (cookie_configs self) as [cfg|]; [|done]. by rewrite (H cfg eq_refl).
Qed.

(** The world the form leaves on a successful sign-in, the user stored. *)
Definition signed_in
    (config : Config) (callback : option (PyVal -> PyVal)) (k login_name password : string)
    (remember u : PyVal) (w : World) : World :=
  let w3 := slept 0.5 (logs (cookie_read_events w) w) in
  with_session_state
    (<[k := u]>
       (delete auth_result_key (<[remember_key := remember]> (session_state (form_opened w3)))))
    (logs (form_events config callback w3 login_name password u) (form_opened w3)).

Lemma login_form_run additionalCheck gl gi config callback k username password remember u
    (w : World) :
  user_key = Some k ->
  session_state w !! k = None \/ session_state w !! k = Some PNone ->
  (forall cfg, cookie_configs self = Some cfg -> cookies w !! CookieConfig.name cfg = None) ->
  submitted (signin_result w) = Some (SigninEvent username password remember) ->
  ldap_login (ldap_auth self) (default getLoginUserName gl username) password
             (fun conn => default getInfo gi conn username) additionalCheck = PDict u ->
  callback_passes callback (PDict u) ->
  is_Some (session_state w !! auth_result_key) ->
  login additionalCheck gl gi config callback w
  = match __setCookie (PDict u)
            (signed_in config callback k (default getLoginUserName gl username) password
                       remember (PDict u) w) with
    | (Ret _, w') => (Raise RerunException, log EvRerun w')
    | (Raise e, w') => (Raise e, w')
    end.
Proof.
  intros Hk Hs Hck Hsub Hldap Hcb Har.
  pose proof (session_user_empty k w Hk Hs) as Hsu.
  pose proof (cookie_user_empty w Hck) as Hcu.
  rewrite login_session_reject by (by rewrite Hsu).
  rewrite Hsu. replace (check_events additionalCheck PNone) with (@nil Event)
    by (by destruct additionalCheck).
  rewrite logs_nil. unfold login_after_session.
  unfold mbind at 1, M_bind at 1. rewrite __getCookie_run.
  unfold mbind at 1, M_bind at 1. rewrite __checkReauthentication_reject by (by rewrite Hcu).
  rewrite Hcu. replace (check_events additionalCheck PNone) with (@nil Event)
    by (by destruct additionalCheck).
  rewrite logs_nil.
  unfold mbind at 1, M_bind at 1. rewrite sleep_run by done.
  unfold mbind at 1, M_bind at 1.
  rewrite (__createLoginForm_success _ _ _ _ _ _ username password remember u) by done.
  change (negb (is_dict (PDict u))) with false. cbv iota.
  unfold mbind at 1, M_bind at 1. rewrite (__setUser_run k) by done.
  unfold mbind at 1, M_bind at 1.
  change (with_session_state _ _) with
    (signed_in config callback k (default getLoginUserName gl username) password
               remember (PDict u) w).
  destruct (__setCookie (PDict u) _) as [[[]|e] w']; reflexivity.
Qed.


Lemma distinct_keys (k : string) :
  NoDup [k; remember_key; auth_result_key] ->
  k <> remember_key /\ k <> auth_result_key /\ auth_result_key <> remember_key.
Proof.
  intros [Hk [Hr _]%NoDup_cons]%NoDup_cons.
  apply not_elem_of_cons in Hk as [Hkr Hk]. apply not_elem_of_cons in Hk as [Hka _].
  apply not_elem_of_cons in Hr as [Hra _]. repeat split; congruence.
Qed.



Lemma utcnow_signed_in config callback k ln password remember u w :
  utcnow (signed_in config callback k ln password remember u w) = (utcnow w + 0.5)%Q.
Proof. unfold signed_in. simpl. by rewrite utcnow_form_opened. Qed.


Lemma remember_signed_in config callback k ln password remember u w :
  NoDup [k; remember_key; auth_result_key] ->
  session_state (signed_in config callback k ln password remember u w) !! remember_key
  = Some remember.
Proof.
  intros (Hkr & _ & Hra)%distinct_keys. unfold signed_in. simpl.
  rewrite lookup_insert_ne by done.
  rewrite lookup_delete_ne by done.
  by rewrite lookup_insert_eq.
Qed.



Lemma trace_cookie_written cfg user w :
  trace (cookie_written cfg user w)
  = trace w ++ [EvCookieSet (CookieConfig.name cfg) (issued_token cfg user (utcnow w))
                            (utcnow w + timedelta_days (CookieConfig.expiry_days cfg))%Q;
                EvSleep (CookieConfig.delay_sec cfg)].
Proof. unfold cookie_written. simpl. by rewrite trace_remember_settled, <- app_assoc. Qed.

Lemma cookies_cookie_written cfg user w :
  cookies (cookie_written cfg user w) !! CookieConfig.name cfg
  = Some (PStr (issued_token cfg user (utcnow w))).
Proof. unfold cookie_written. simpl. by rewrite lookup_insert_eq. Qed.



(** C10: a remember slot that is absent, or holds something that is no
    [bool], counts as [True], and [True] is written into it.  So, with cookies
    configured, [__setCookie] writes the cookie unless the slot holds [False];
    so does the renewal of an accepted candidate when auto-renewal is on, and
    so does a sign-in through the form unless the flag submitted is [False].
    With [False] in the slot no cookie is written. *)
Theorem remember_me_defaults_to_True (w : World) :
  ((forall b, session_state w !! remember_key <> Some (PBool b)) ->
   __getRememberMe w
   = (Ret true, with_session_state (<[remember_key := PTrue]> (session_state w)) w))
  /\ (forall cfg d,
        cookie_configs self = Some cfg ->
        session_state w !! remember_key <> Some PFalse ->
        (0 <= CookieConfig.delay_sec cfg)%Q ->
        exists w',
          __setCookie (PDict d) w = (Ret tt, w')
          /\ cookies w' !! CookieConfig.name cfg
             = Some (PStr (issued_token cfg (PDict d) (utcnow w)))
          /\ In (EvCookieSet (CookieConfig.name cfg) (issued_token cfg (PDict d) (utcnow w))
                             (utcnow w + timedelta_days (CookieConfig.expiry_days cfg))%Q)
                (trace w'))
  /\ (forall cfg d additionalCheck,
        cookie_configs self = Some cfg ->
        CookieConfig.auto_renewal cfg = true ->
        check_accepts additionalCheck (PDict d) = true ->
        session_state w !! remember_key <> Some PFalse ->
        (0 <= CookieConfig.delay_sec cfg)%Q ->
        exists w',
          __checkReauthentication (PDict d) additionalCheck w = (Ret true, w')
          /\ cookies w' !! CookieConfig.name cfg
             = Some (PStr (issued_token cfg (PDict d) (utcnow w))))
  /\ (forall additionalCheck gl gi config callback k cfg username password remember u,
        user_key = Some k ->
        NoDup [k; remember_key; auth_result_key] ->
        session_state w !! k = None \/ session_state w !! k = Some PNone ->
        cookie_configs self = Some cfg ->
        cookies w !! CookieConfig.name cfg = None ->
        submitted (signin_result w) = Some (SigninEvent username password remember) ->
        ldap_login (ldap_auth self) (default getLoginUserName gl username) password
                   (fun conn => default getInfo gi conn username) additionalCheck = PDict u ->
        callback_passes callback (PDict u) ->
        is_Some (session_state w !! auth_result_key) ->
        remember <> PFalse ->
        (0 <= CookieConfig.delay_sec cfg)%Q ->
        exists w',
          login additionalCheck gl gi config callback w = (Raise RerunException, w')
          /\ cookies w' !! CookieConfig.name cfg
             = Some (PStr (issued_token cfg (PDict u) (utcnow w + 0.5)%Q)))
  /\ (forall cfg user,
        cookie_configs self = Some cfg ->
        session_state w !! remember_key = Some PFalse ->
        __setCookie user w = (Ret tt, w)).
Proof.
  split; [|split; [|split; [|split]]].
  - intros Hnb. rewrite __getRememberMe_run. unfold remember_flag, remember_settled.
    destruct (session_state w !! remember_key) as [[]|] eqn:E; try done.
    by destruct (Hnb b).
  - intros cfg d Hcfg Hrm Hdelay. exists (cookie_written cfg (PDict d) w).
    split; [by apply __setCookie_remember|]. split; [apply cookies_cookie_written|].
    rewrite trace_cookie_written. apply in_or_app. right. by left.
  - intros cfg d ac Hcfg Hauto Hacc Hrm Hdelay.
    assert delay_ok as Hd by (intros cfg' E; congruence).
    rewrite __checkReauthentication_accept by done.
    eexists. split; [reflexivity|].
    unfold renewed. rewrite Hcfg, Hauto.
    assert (remember_flag (logs (check_events ac (PDict d)) w) = true) as ->.
    { destruct (remember_flag _) eqn:E; [done|]. by apply remember_flag_false in E. }
    exact (cookies_cookie_written cfg (PDict d) (logs (check_events ac (PDict d)) w)).
  - intros ac gl gi config callback k cfg username password remember u
      Hk Hnd Hs Hcfg Hck Hsub Hldap Hcb Har Hrem Hdelay.
    rewrite (login_form_run ac gl gi config callback k username password remember u) by
      (try done; intros cfg' E; congruence).
    rewrite (__setCookie_remember cfg); try done.
    + eexists. split; [reflexivity|].
      change (cookies (log EvRerun ?w0)) with (cookies w0).
      by rewrite cookies_cookie_written, utcnow_signed_in.
    + rewrite remember_signed_in by done. congruence.
  - intros cfg user Hcfg Hrm. by apply (__setCookie_forget cfg).
Qed.

(** ** The token codec *)

Definition is_float (v : PyVal) : bool := match v with PFloat _ => true | _ => false end.

(** The conditions under which a decoded payload gives no user, at the clock
    reading [now]. *)
Definition payload_rejected (d : Dict) (now : Q) : Prop :=
  dict_get d "exp_date" = None
  \/ (exists x, dict_get d "exp_date" = Some x /\ is_float x = false)
  \/ (exists e, dict_get d "exp_date" = Some (PFloat e) /\ (e < now)%Q)
  \/ dict_get d "user" = None
  \/ (exists x, dict_get d "user" = Some x /\ is_dict x = false).

(** The conditions under which [__tokenDecode] gives no user. *)
Definition decode_fails (cfg : CookieConfig.t) (token : PyVal) (now : Q) : Prop :=
  token = PNone
  \/ is_str token = false
  \/ exists t, token = PStr t
       /\ (jwt_decode t (CookieConfig.key cfg) = None
           \/ exists value, jwt_decode t (CookieConfig.key cfg) = Some value
                /\ (is_dict value = false
                    \/ exists d, value = PDict d /\ payload_rejected d now)).

(** What the checks after [jwt.decode] make of a payload. *)
Definition payload_user (d : Dict) (now : Q) : string + PyVal :=
  match dict_get d "exp_date" with
  | None => inl "exp_date is not found"
  | Some (PFloat exp_date) =>
      if Qltb exp_date now then inl "Cookie expired"
      else match dict_get d "user" with
           | None => inl "user is not found"
           | Some (PDict user) => inr (PDict user)
           | Some _ => inl "user is not dict"
           end
  | Some _ => inl "exp_date is not float"
  end.

Lemma payload_user_rejected d now :
  (exists e, payload_user d now = inl e) <-> payload_rejected d now.
Proof.
  unfold payload_user, payload_rejected.
  destruct (dict_get d "exp_date") as [x|]; [|split; eauto].
  destruct x as [| | | e | | |];
    try (split; [intros _; right; left; eexists; by split | eauto]).
  destruct (Qltb e now) eqn:Hlt.
  { apply Qltb_lt in Hlt. split; [intros _; right; right; left; eauto | eauto]. }
  apply Qltb_ge in Hlt.
  destruct (dict_get d "user") as [x|]; [|split; eauto 6].
  destruct x as [| | | | | | u];
    try (split; [intros _; right; right; right; right; eexists; by split | eauto]).
  split; [by intros [? ?]|].
  intros [?|[(x & [= <-] & ?)|[(e' & [= <-] & He)|[?|(x & [= <-] & ?)]]]]; try done.
  by apply Qle_not_lt in Hlt.
Qed.

Lemma __tokenDecode_try_payload cfg t d now :
  jwt_decode t (CookieConfig.key cfg) = Some (PDict d) ->
  __tokenDecode_try cfg (PStr t) now = payload_user d now.
Proof. intros H. unfold __tokenDecode_try, payload_user. by rewrite H. Qed.

Lemma payload_user_dict d now v : payload_user d now = inr v -> is_dict v = true.
Proof.
  unfold payload_user.
  destruct (dict_get d "exp_date") as [[]|]; try done.
  destruct (Qltb _ _); [done|].
  destruct (dict_get d "user") as [[]|]; try done. by intros [= <-].
Qed.

Lemma decoded_absent_iff cfg token now :
  decoded cfg token now = PNone <-> decode_fails cfg token now.
Proof.
  unfold decoded, decode_fails.
  destruct token as [| | | | t | |]; try (split; [intros _; by auto | done]).
  destruct (jwt_decode t (CookieConfig.key cfg)) as [value|] eqn:Hjwt.
  2:{ unfold __tokenDecode_try. rewrite Hjwt. split; [intros _; right; right; eauto | done]. }
  destruct (is_dict value) eqn:Hdict.
  - destruct value as [| | | | | | d]; try done.
    rewrite (__tokenDecode_try_payload _ _ d) by done.
    pose proof (payload_user_rejected d now) as Hp. split.
    + intros H. right; right. exists t. split; [done|]. right. exists (PDict d).
      split; [done|]. right. exists d. split; [done|]. apply Hp.
      destruct (payload_user d now) as [e|v] eqn:E; [eauto|].
      apply payload_user_dict in E. by subst.
    + intros [?|[?|(t0 & Ht & Hrest)]]; [done|done|]. injection Ht as <-.
      destruct Hrest as [?|(value & Hv & Hrest)]; [congruence|].
      rewrite Hjwt in Hv. injection Hv as <-.
      destruct Hrest as [?|(d0 & Hd0 & H)]; [done|]. injection Hd0 as <-.
      by apply Hp in H as [e ->].
  - unfold __tokenDecode_try. rewrite Hjwt.
    split; [|by destruct value].
    intros _. right; right. exists t. split; [done|]. right. exists value. by auto.
Qed.

(** C3 (as amended): [__tokenDecode] always returns, and it returns [None]
    exactly when the token is absent or no string, [jwt.decode] fails on it,
    the decoded payload is no mapping, [exp_date] is missing or is no [float]
    (an integer does not pass), [exp_date] lies in the past, or [user] is
    missing or no mapping.  So a token whose signature does not verify gives
    [None], and so does one whose [exp_date] lies in the past. *)
Theorem tokenDecode_absent_iff (cfg : CookieConfig.t) (token : PyVal) (w : World) :
  exists v evs,
    __tokenDecode cfg token w = (Ret v, logs evs w)
    /\ (v = PNone <-> decode_fails cfg token (utcnow w))
    /\ (forall t, token = PStr t -> jwt_decode t (CookieConfig.key cfg) = None -> v = PNone)
    /\ (forall t d e,
          token = PStr t ->
          jwt_decode t (CookieConfig.key cfg) = Some (PDict d) ->
          dict_get d "exp_date" = Some (PFloat e) ->
          (e < utcnow w)%Q ->
          v = PNone).
Proof.
  exists (decoded cfg token (utcnow w)), (decode_prints cfg token (utcnow w)).
  split; [apply __tokenDecode_run|]. split; [apply decoded_absent_iff|]. split.
  - intros t -> Hjwt. apply decoded_absent_iff. right; right. eauto.
  - intros t d e -> Hjwt He Hlt. apply decoded_absent_iff. right; right.
    exists t. split; [done|]. right. exists (PDict d). split; [done|]. right.
    exists d. split; [done|]. right; right; left. eauto.
Qed.

(** C4: a token that [__tokenEncode] issues for a user decodes to that user
    again, with the same configuration, as long as the clock has not passed
    the expiry date put into it ([jwt.decode] giving back the payload that
    [jwt.encode] signed). *)
Theorem token_round_trip (cfg : CookieConfig.t) (d : Dict) (w_enc w_dec : World) :
  jwt_decode
    (jwt_encode
       (PDict [("user", PDict d);
               ("exp_date",
                PFloat (utcnow w_enc + timedelta_days (CookieConfig.expiry_days cfg))%Q)])
       (CookieConfig.key cfg))
    (CookieConfig.key cfg)
  = Some (PDict [("user", PDict d);
                 ("exp_date",
                  PFloat (utcnow w_enc + timedelta_days (CookieConfig.expiry_days cfg))%Q)]) ->
  (utcnow w_dec <= utcnow w_enc + timedelta_days (CookieConfig.expiry_days cfg))%Q ->
  exists token,
    __tokenEncode cfg (PDict d) w_enc = (Ret token, w_enc)
    /\ __tokenDecode cfg (PStr token) w_dec = (Ret (PDict d), w_dec).
Proof.
  intros Hjwt Hnow. exists (issued_token cfg (PDict d) (utcnow w_enc)).
  split; [apply __tokenEncode_run|].
  rewrite __tokenDecode_run. unfold decoded, decode_prints, __tokenDecode_try, issued_token.
  rewrite Hjwt. simpl. apply Qltb_ge in Hnow. rewrite Hnow. by rewrite logs_nil.
Qed.

(** C8: the bind-name builder [getLoginUserName] and the look-up
    [getInfo] sort a login name the same way.  A name that matches the email
    pattern is bound as it is and looked up by its principal name; a name
    that matches the domain pattern is bound as its domain, a backslash and
    its short name, which is the name as typed (a closing newline apart), and
    looked up by the short name; any other name is bound with the configured
    domain before it and looked up as it is.  So [CORP\jdoe] is bound as
    [CORP\jdoe] and looked up as [jdoe], and [jdoe] is bound as [CORP\jdoe]
    when the configured domain is [CORP]. *)
Theorem login_name_three_way (conn : Connection) (username : string) :
  (is_Some (re_match RegexEmail username) ->
   getLoginUserName username = username
   /\ getInfo conn username = getInfoByUserPrincipalName (ldap_auth self) conn username)
  /\ (re_match RegexEmail username = None ->
      forall g, re_match RegexDomain username = Some g ->
      getLoginUserName username = group g 1 +:+ "\" +:+ group g 2
      /\ getInfo conn username = getInfoBySamAccountName (ldap_auth self) conn (group g 2)
      /\ (username = getLoginUserName username
          \/ username = getLoginUserName username +:+ String newline ""))
  /\ (re_match RegexEmail username = None ->
      re_match RegexDomain username = None ->
      getLoginUserName username = config_domain (ldap_auth self) +:+ "\" +:+ username
      /\ getInfo conn username = getInfoBySamAccountName (ldap_auth self) conn username)
  /\ getLoginUserName "CORP\jdoe" = "CORP\jdoe"
  /\ getInfo conn "CORP\jdoe" = getInfoBySamAccountName (ldap_auth self) conn "jdoe"
  /\ (config_domain (ldap_auth self) = "CORP" -> getLoginUserName "jdoe" = "CORP\jdoe")
  /\ getInfo conn "jdoe" = getInfoBySamAccountName (ldap_auth self) conn "jdoe"
  /\ getLoginUserName "jdoe@corp.example.com" = "jdoe@corp.example.com"
  /\ getInfo conn "jdoe@corp.example.com"
     = getInfoByUserPrincipalName (ldap_auth self) conn "jdoe@corp.example.com".
Proof.
  unfold getLoginUserName, getInfo.
  split; [|split; [|split]].
  - intros [g ->]. done.
  - intros -> g Hg. rewrite Hg. split; [done|]. split; [done|].
    apply RegexDomain_match in Hg as (tail & Hu & [-> | ->]).
    + left. rewrite Hu at 1. by rewrite string_app_nil_r.
    + right. rewrite Hu at 1. by rewrite !string_app_assoc.
  - by intros -> ->.
  - replace (re_match RegexEmail "CORP\jdoe") with (@None Groups) by (by vm_compute).
    replace (re_match RegexDomain "CORP\jdoe") with (Some [(2, "jdoe"); (1, "CORP")])
      by (by vm_compute).
    replace (re_match RegexEmail "jdoe") with (@None Groups) by (by vm_compute).
    replace (re_match RegexDomain "jdoe") with (@None Groups) by (by vm_compute).
    replace (re_match RegexEmail "jdoe@corp.example.com")
      with (Some [(1, "example."); (1, "corp.")]) by (by vm_compute).
    repeat split. by intros ->.
Qed.

(** C9: when the sign-out form is submitted and the callback returns
    ['cancel'], [createLogoutForm] returns without anything changed: the
    session state and the cookies are as before, no cookie call is made, and
    [st.rerun()] is not reached. *)
Theorem createLogoutForm_cancel config cb w :
  submitted (signout_result w) = Some SignoutEvent ->
  py_eq_str (cb SignoutEvent) "cancel" = true ->
  exists evs,
    createLogoutForm config (Some cb) w = (Ret tt, logs evs w)
    /\ session_state (logs evs w) = session_state w
    /\ cookies (logs evs w) = cookies w
    /\ forallb (fun e => negb (is_rerun e || is_cookie_read e || is_cookie_write e)) evs = true.
Proof.
  intros Hsub Hcb. unfold createLogoutForm.
  destruct (__getLogoutConfig config) as [[cfg busy] sec].
  exists ([EvSignoutForm cfg] ++ decrypt_events (signout_result w)
            ++ [EvSignoutCallback]).
  split; [|split; [reflexivity|split; [reflexivity|]]].
  - mstep. unfold submitted in Hsub.
    destruct (signout_result w) eqn:Hres; try discriminate;
      injection Hsub as Hsub; rewrite decrypt_result_run, Hsub; mstep; rewrite Hcb;
      by rewrite !log_logs, !logs_logs.
  - unfold decrypt_events. by destruct (encryptor self), (signout_result w).
Qed.

(** ** The claims that do not hold as worded

    Each is stated here the way the specification words it, for one world;
    the counterexamples below refute them for a sample deployment. *)

(** C2 as worded: whatever the additional check returns other than [True]
    rejects the candidate. *)
Definition rejects_unless_True
    (check : AdditionalCheck Connection) (d : Dict) (w : World) : Prop :=
  check None (PDict d) <> PTrue ->
  exists w', __checkReauthentication (PDict d) (Some check) w = (Ret false, w').

(** A number, [int] or [float], and its value. *)
Definition is_numeric (v : PyVal) : bool :=
  match v with PInt _ | PFloat _ => true | _ => false end.

Definition numeric_value (v : PyVal) : option Q :=
  match v with
  | PInt z => Some (inject_Z z)
  | PFloat q => Some q
  | _ => None
  end.

(** C3 as worded: the failures of a decoded payload are an [exp_date] that
    is missing or not numeric, an [exp_date] in the past, and a [user] that
    is missing or no mapping. *)
Definition spec_payload_rejected (d : Dict) (now : Q) : Prop :=
  dict_get d "exp_date" = None
  \/ (exists x, dict_get d "exp_date" = Some x /\ is_numeric x = false)
  \/ (exists x e, dict_get d "exp_date" = Some x /\ numeric_value x = Some e /\ (e < now)%Q)
  \/ dict_get d "user" = None
  \/ (exists x, dict_get d "user" = Some x /\ is_dict x = false).

Definition spec_decode_fails (cfg : CookieConfig.t) (token : PyVal) (now : Q) : Prop :=
  token = PNone
  \/ is_str token = false
  \/ exists t, token = PStr t
       /\ (jwt_decode t (CookieConfig.key cfg) = None
           \/ exists value, jwt_decode t (CookieConfig.key cfg) = Some value
                /\ (is_dict value = false
                    \/ exists d, value = PDict d /\ spec_payload_rejected d now)).

Definition decode_absent_as_specified
    (cfg : CookieConfig.t) (token : PyVal) (w : World) : Prop :=
  exists v w',
    __tokenDecode cfg token w = (Ret v, w')
    /\ (v = PNone <-> spec_decode_fails cfg token (utcnow w)).

(** C5 as worded: on the fast path nothing outside is called, the cookie
    neither read nor written. *)
Definition fast_path_calls_nothing (w : World) : Prop :=
  forall d,
    session_user w = PDict d ->
    exists w' evs,
      login None None None CfgNone None w = (Ret (PDict d), w')
      /\ trace w' = trace w ++ evs
      /\ forallb (fun e => negb (calls_outside e)) evs = true.

(** C6 as worded: a correctly signed token whose [exp_date], a number, lies
    in the future signs its user in. *)
Definition cookie_signs_in (w : World) : Prop :=
  forall k cfg tok payload x e u,
    user_key = Some k ->
    session_state w !! k = None \/ session_state w !! k = Some PNone ->
    cookie_configs self = Some cfg ->
    cookies w !! CookieConfig.name cfg = Some (PStr tok) ->
    jwt_decode tok (CookieConfig.key cfg) = Some (PDict payload) ->
    dict_get payload "exp_date" = Some x ->
    numeric_value x = Some e ->
    (utcnow w < e)%Q ->
    dict_get payload "user" = Some (PDict u) ->
    exists w' evs,
      login None None None CfgNone None w = (Ret (PDict u), w')
      /\ session_state w' !! k = Some (PDict u)
      /\ trace w' = trace w ++ evs
      /\ forallb (fun e => negb (is_directory e)) evs = true.


(** * Further properties of the engine *)

(** ** Session state adapters *)

Lemma __setRememberMe_run v w :
  __setRememberMe v w
  = (Ret tt, with_session_state (<[remember_key := v]> (session_state w)) w).
Proof. reflexivity. Qed.

(** X1: what [__setUser] stores, [__getUser] reads back when it is a [dict],
    and reads as [None] otherwise (so after [setUserNone]); the state is the
    one [__setUser] left.  With no user key configured [__setUser] stores
    nothing, and [__getUser] reads the slot that [st.session_state] names
    [None]: what it returns is a [dict] held there before, or [None],
    whatever [__setUser] was given. *)
Theorem setUser_getUser (user : PyVal) (w : World) :
  (forall k,
     user_key = Some k ->
     (__setUser user;; __getUser) w
     = (Ret (if is_dict user then user else PNone),
        with_session_state (<[k := user]> (session_state w)) w)
     /\ (setUserNone;; __getUser) w
        = (Ret PNone, with_session_state (<[k := PNone]> (session_state w)) w))
  /\ (user_key = None ->
      (__setUser user;; __getUser) w
      = (Ret (match session_state w !! "None" with
              | Some stored => if is_dict stored then stored else PNone
              | None => PNone
              end), w)).
Proof.
  split.
  - intros k Hk. split.
    + unfold mbind, M_bind. rewrite (__setUser_run k) by done. rewrite __getUser_run.
      unfold session_user. rewrite (user_slot_key k Hk). simpl.
      rewrite lookup_insert_eq. by destruct user.
    + unfold mbind, M_bind, setUserNone. unfold mbind at 1, M_bind at 1. simpl.
      rewrite Hk. simpl. rewrite __getUser_run.
      unfold session_user. rewrite (user_slot_key k Hk). simpl.
      by rewrite lookup_insert_eq.
  - intros Hk. unfold mbind, M_bind, __setUser. unfold mbind at 1, M_bind at 1. simpl.
    rewrite Hk. simpl. rewrite __getUser_run. unfold session_user, user_slot.
    rewrite Hk. simpl. by destruct (session_state w !! "None") as [[]|].
Qed.

(** X2: after [__setRememberMe] the flag reads as the [bool] stored, and as
    [True] when what was stored is no [bool]; and [__getRememberMe] settles
    the slot: a second call returns the same flag and changes nothing. *)
Theorem setRememberMe_getRememberMe (w : World) :
  (forall b,
     (__setRememberMe (PBool b);; __getRememberMe) w
     = (Ret b, with_session_state (<[remember_key := PBool b]> (session_state w)) w))
  /\ (forall v,
        (forall b, v <> PBool b) ->
        (__setRememberMe v;; __getRememberMe) w
        = (Ret true, with_session_state (<[remember_key := PTrue]> (session_state w)) w))
  /\ (exists b w',
        __getRememberMe w = (Ret b, w')
        /\ session_state w' !! remember_key = Some (PBool b)
        /\ __getRememberMe w' = (Ret b, w')).
Proof.
  split; [|split].
  - intros b. unfold mbind, M_bind. rewrite __setRememberMe_run, __getRememberMe_run.
    unfold remember_flag, remember_settled. simpl. by rewrite lookup_insert_eq.
  - intros v Hv. unfold mbind, M_bind. rewrite __setRememberMe_run, __getRememberMe_run.
    unfold remember_flag, remember_settled. simpl. rewrite lookup_insert_eq.
    destruct v as [| b | | | | |]; try (by rewrite insert_insert_eq).
    by destruct (Hv b).
  - exists (remember_flag w), (remember_settled w).
    split; [apply __getRememberMe_run|].
    assert (session_state (remember_settled w) !! remember_key = Some (PBool (remember_flag w)))
      as Hslot.
    { unfold remember_flag, remember_settled.
      destruct (session_state w !! remember_key) as [[]|] eqn:E; simpl;
        by rewrite ?lookup_insert_eq. }
    split; [exact Hslot|].
    rewrite __getRememberMe_run.
    assert (remember_flag (remember_settled w) = remember_flag w) as ->
      by (unfold remember_flag at 1; by rewrite Hslot).
    assert (remember_settled (remember_settled w) = remember_settled w) as ->
      by (unfold remember_settled at 1; by rewrite Hslot).
    reflexivity.
Qed.

(** ** The cookie adapter *)

(** The world after [__deleteCookie]. *)
Definition cookie_deleted (w : World) : World :=
  match cookie_configs self with
  | None => w
  | Some cfg =>
      match cookies w !! CookieConfig.name cfg with
      | None => log EvCookieGetAll w
      | Some _ =>
          slept (CookieConfig.delay_sec cfg)
            (with_cookies (delete (CookieConfig.name cfg) (cookies w))
               (logs [EvCookieGetAll; EvCookieRemove (CookieConfig.name cfg)] w))
      end
  end.

Lemma __deleteCookie_run w : delay_ok -> __deleteCookie w = (Ret tt, cookie_deleted w).
Proof.
  intros Hd. unfold __deleteCookie, cookie_deleted.
  destruct (cookie_configs self) as [cfg|] eqn:Hcfg; [|done].
  mstep. destruct (cookies w !! CookieConfig.name cfg); [|done].
  mstep. rewrite sleep_run by exact (Hd cfg Hcfg).
  by rewrite !log_logs, logs_logs.
Qed.

Lemma cookies_cookie_deleted cfg w :
  cookie_configs self = Some cfg ->
  cookies (cookie_deleted w) = delete (CookieConfig.name cfg) (cookies w).
Proof.
  intros Hcfg. unfold cookie_deleted. rewrite Hcfg.
  destruct (cookies w !! CookieConfig.name cfg) eqn:E; [done|].
  simpl. by rewrite delete_id.
Qed.

Lemma session_state_cookie_deleted w : session_state (cookie_deleted w) = session_state w.
Proof.
  unfold cookie_deleted. destruct (cookie_configs self) as [cfg|]; [|done].
  by destruct (cookies w !! CookieConfig.name cfg).
Qed.

(** X3: [__deleteCookie] removes the configured cookie and no other, and
    leaves the session state alone; when there is no such cookie it only
    lists the cookies, without removing or waiting, so a second call in a row
    does no more than that. *)
Theorem deleteCookie_removes_the_cookie (cfg : CookieConfig.t) (w : World) :
  cookie_configs self = Some cfg ->
  (0 <= CookieConfig.delay_sec cfg)%Q ->
  exists w',
    __deleteCookie w = (Ret tt, w')
    /\ cookies w' = delete (CookieConfig.name cfg) (cookies w)
    /\ session_state w' = session_state w
    /\ (cookies w !! CookieConfig.name cfg = None -> w' = log EvCookieGetAll w)
    /\ __deleteCookie w' = (Ret tt, log EvCookieGetAll w').
Proof.
  intros Hcfg Hdelay.
  assert delay_ok as Hd by (intros cfg' E; congruence).
  exists (cookie_deleted w). split; [by apply __deleteCookie_run|].
  split; [by apply cookies_cookie_deleted|].
  split; [apply session_state_cookie_deleted|]. split.
  - intros E. unfold cookie_deleted. by rewrite Hcfg, E.
  - rewrite __deleteCookie_run by done. unfold cookie_deleted at 1. rewrite Hcfg.
    by rewrite (cookies_cookie_deleted cfg), lookup_delete_eq.
Qed.

(** The cookie [__getCookie] finds in a world that holds the token issued for
    [user] at the clock reading [issued]. *)
Lemma cookie_user_issued cfg d issued w :
  cookie_configs self = Some cfg ->
  cookies w !! CookieConfig.name cfg = Some (PStr (issued_token cfg (PDict d) issued)) ->
  jwt_decode (issued_token cfg (PDict d) issued) (CookieConfig.key cfg)
  = Some (PDict [("user", PDict d);
                 ("exp_date", PFloat (issued + timedelta_days (CookieConfig.expiry_days cfg))%Q)]) ->
  cookie_user w
  = if Qltb (issued + timedelta_days (CookieConfig.expiry_days cfg))%Q (utcnow w)
    then PNone else PDict d.
Proof.
  intros Hcfg Hck Hjwt. unfold cookie_user, cookie_token. rewrite Hcfg, Hck. simpl.
  unfold decoded, __tokenDecode_try. rewrite Hjwt. simpl.
  by destruct (Qltb _ _).
Qed.

(** X4: the cookie that [__setCookie] writes for a user is the one
    [__getCookie] reads: in any later world that still holds it, the user
    comes back as long as the clock has not passed the issue time plus the
    configured days, and no user comes back once it has ([jwt.decode] giving
    back the payload that [jwt.encode] signed). *)
Theorem setCookie_getCookie (cfg : CookieConfig.t) (d : Dict) (w : World) :
  cookie_configs self = Some cfg ->
  session_state w !! remember_key <> Some PFalse ->
  (0 <= CookieConfig.delay_sec cfg)%Q ->
  jwt_decode (issued_token cfg (PDict d) (utcnow w)) (CookieConfig.key cfg)
  = Some (PDict [("user", PDict d);
                 ("exp_date",
                  PFloat (utcnow w + timedelta_days (CookieConfig.expiry_days cfg))%Q)]) ->
  exists w1,
    __setCookie (PDict d) w = (Ret tt, w1)
    /\ (utcnow w1 == utcnow w + CookieConfig.delay_sec cfg)%Q
    /\ forall w2,
         cookies w2 !! CookieConfig.name cfg = cookies w1 !! CookieConfig.name cfg ->
         ((utcnow w2 <= utcnow w + timedelta_days (CookieConfig.expiry_days cfg))%Q ->
          (__getCookie w2).1 = Ret (PDict d))
         /\ ((utcnow w + timedelta_days (CookieConfig.expiry_days cfg) < utcnow w2)%Q ->
             (__getCookie w2).1 = Ret PNone).
Proof.
  intros Hcfg Hrm Hdelay Hjwt. exists (cookie_written cfg (PDict d) w).
  split; [by apply __setCookie_remember|]. split.
  { unfold cookie_written. simpl. by rewrite utcnow_remember_settled. }
  intros w2 Hck. rewrite cookies_cookie_written in Hck.
  rewrite __getCookie_run. simpl.
  rewrite (cookie_user_issued cfg d (utcnow w)) by done.
  split; intros Hnow.
  - apply Qltb_ge in Hnow. by rewrite Hnow.
  - apply Qltb_lt in Hnow. by rewrite Hnow.
Qed.

(** ** [login] when neither candidate passes *)

(** The statements of [login] from the form on. *)
Definition login_form_stage
  (additionalCheck : option (AdditionalCheck Connection))
  (getLoginUserName' : option (string -> string))
  (getInfo' : option (Connection -> string -> PyVal))
  (config : Config)
  (callback : option (PyVal -> PyVal)) : M PyVal :=
  user ← __createLoginForm additionalCheck getLoginUserName' getInfo' config callback;
  if negb (is_dict user) then mret PNone
  else
    __setUser user;;
    __setCookie user;;
    try_finally (mret user) rerun.

(** A candidate that is no user, or that the additional check turns down. *)
Definition misses (additionalCheck : option (AdditionalCheck Connection)) (user : PyVal) : Prop :=
  is_dict user && check_accepts additionalCheck user = false.

(** The calls [login] makes before it shows the form. *)
Definition miss_events (additionalCheck : option (AdditionalCheck Connection)) (w : World)
  : list Event :=
  check_events additionalCheck (session_user w)
    ++ cookie_read_events w
    ++ check_events additionalCheck (cookie_user w)
    ++ [EvSleep 0.5].

Definition missed (additionalCheck : option (AdditionalCheck Connection)) (w : World) : World :=
  mkWorld (session_state w) (cookies w) (utcnow w + 0.5)%Q (signin_result w) (signout_result w)
          (trace w ++ miss_events additionalCheck w).

Lemma login_miss_run additionalCheck gl gi config callback w :
  misses additionalCheck (session_user w) ->
  misses additionalCheck (cookie_user w) ->
  login additionalCheck gl gi config callback w
  = login_form_stage additionalCheck gl gi config callback (missed additionalCheck w).
Proof.
  intros Hs Hc. rewrite login_session_reject by done. unfold login_after_session.
  unfold mbind at 1, M_bind at 1. rewrite __getCookie_run.
  unfold mbind at 1, M_bind at 1.
  change (cookie_user (logs (check_events additionalCheck (session_user w)) w))
    with (cookie_user w).
  change (cookie_read_events (logs (check_events additionalCheck (session_user w)) w))
    with (cookie_read_events w).
  rewrite __checkReauthentication_reject by done.
  unfold mbind at 1, M_bind at 1. rewrite sleep_run by done.
  unfold login_form_stage, missed, miss_events, slept, logs. simpl.
  by rewrite <- !app_assoc.
Qed.

(** An event that is no directory call, no cookie write and no rerun. *)
Definition quiet_event (e : Event) : bool :=
  negb (is_directory e || is_cookie_write e || is_rerun e).

Lemma miss_events_quiet additionalCheck w :
  forallb quiet_event (miss_events additionalCheck w) = true.
Proof.
  unfold miss_events. rewrite !forallb_app.
  assert (forall u, forallb quiet_event (check_events additionalCheck u) = true) as Hcheck.
  { intros u. unfold check_events. by destruct additionalCheck, (is_dict u). }
  rewrite !Hcheck. simpl. rewrite andb_true_r.
  unfold cookie_read_events. destruct (cookie_configs self) as [cfg|]; [|done]. simpl.
  unfold decode_prints. by destruct (__tokenDecode_try _ _ _).
Qed.

(** *** The form, not submitted as a sign-in *)

(** Nothing was submitted, or what was submitted is no sign-in. *)
Definition no_signin (w : World) : Prop :=
  forall username password remember,
    submitted (signin_result w) <> Some (SigninEvent username password remember).

Definition idle_form_events (config : Config) (w : World) : list Event :=
  EvSigninForm (form_default w) (__getLoginConfig config).1.1
    :: match signin_result w with
       | PNone => []
       | result => decrypt_events result
       end.

Lemma form_default_run w :
  (match cookie_configs self with
   | Some _ => remember ← __getRememberMe; mret (PDict [("remember", PBool remember)])
   | None => mret PNone
   end : M PyVal) w = (Ret (form_default w), form_opened w).
Proof.
  unfold form_default, form_opened. destruct (cookie_configs self); [|done].
  unfold mbind, M_bind. by rewrite __getRememberMe_run.
Qed.

Lemma __createLoginForm_idle additionalCheck gl gi config callback w :
  no_signin w ->
  __createLoginForm additionalCheck gl gi config callback w
  = (Ret PNone, logs (idle_form_events config w) (form_opened w)).
Proof.
  intros Hno. unfold __createLoginForm, idle_form_events.
  unfold mbind at 1, M_bind at 1. rewrite form_default_run.
  destruct (__getLoginConfig config) as [[cfg busy] icon]. simpl fst.
  mstep. rewrite signin_result_form_opened.
  unfold no_signin, submitted in Hno.
  destruct (signin_result w) eqn:Hres; try done;
    rewrite decrypt_result_run; cbv beta iota;
    (match goal with
     | |- context [getEvent ?x] => destruct (getEvent x) eqn:Hev
     end; [exfalso; by eapply Hno | |]);
    by rewrite log_logs, logs_logs.
Qed.

Lemma login_unauthenticated_run additionalCheck gl gi config callback w :
  misses additionalCheck (session_user w) ->
  misses additionalCheck (cookie_user w) ->
  no_signin w ->
  exists w', login additionalCheck gl gi config callback w = (Ret PNone, w').
Proof.
  intros Hs Hc Hno. rewrite login_miss_run by done.
  unfold login_form_stage. unfold mbind at 1, M_bind at 1.
  rewrite __createLoginForm_idle by (exact Hno). by eexists.
Qed.

(** The sign-in form is put on the page. *)
Definition is_signin_form (e : Event) : bool :=
  match e with EvSigninForm _ _ => true | _ => false end.

(** X5: when the session state and the cookie give no user that passes, and
    no sign-in was submitted, [login] waits half a second, then shows the
    sign-in form, once, with the remember flag as its default and the
    configuration of [__getLoginConfig], and returns [None]: no directory
    call, no cookie written, no [st.rerun()], the cookies as they were and the
    session state too, but for the remember slot. *)
Theorem login_unauthenticated additionalCheck gl gi config callback (w : World) :
  misses additionalCheck (session_user w) ->
  misses additionalCheck (cookie_user w) ->
  no_signin w ->
  exists w' before after,
    login additionalCheck gl gi config callback w = (Ret PNone, w')
    /\ trace w'
       = trace w ++ before
           ++ [EvSleep 0.5; EvSigninForm (form_default w) (__getLoginConfig config).1.1]
           ++ after
    /\ forallb quiet_event (before ++ after) = true
    /\ forallb (fun e => negb (is_signin_form e)) (before ++ after) = true
    /\ cookies w' = cookies w
    /\ (forall j, j <> remember_key -> session_state w' !! j = session_state w !! j).
Proof.
  intros Hs Hc Hno. rewrite login_miss_run by done.
  unfold login_form_stage. unfold mbind at 1, M_bind at 1.
  rewrite __createLoginForm_idle by exact Hno.
  simpl negb. cbv iota.
  eexists _,
    (check_events additionalCheck (session_user w)
       ++ cookie_read_events w ++ check_events additionalCheck (cookie_user w)),
    (match signin_result w with PNone => [] | result => decrypt_events result end).
  split; [reflexivity|].
  assert (forall u, forallb (fun e => quiet_event e && negb (is_signin_form e))
                      (check_events additionalCheck u) = true) as Hcheck.
  { intros u. unfold check_events. by destruct additionalCheck, (is_dict u). }
  assert (forallb (fun e => quiet_event e && negb (is_signin_form e))
            ((check_events additionalCheck (session_user w)
                ++ cookie_read_events w ++ check_events additionalCheck (cookie_user w))
               ++ match signin_result w with PNone => [] | result => decrypt_events result end)
          = true) as Hall.
  { rewrite !forallb_app, !Hcheck. simpl. rewrite andb_true_r.
    apply andb_true_iff. split.
    - unfold cookie_read_events. destruct (cookie_configs self) as [cfg|]; [|done]. simpl.
      unfold decode_prints. by destruct (__tokenDecode_try _ _ _).
    - destruct (signin_result w); try done;
        unfold decrypt_events; by destruct (encryptor self). }
  split; [|split; [|split; [|split]]].
  - simpl. rewrite trace_form_opened. simpl. unfold miss_events, idle_form_events. simpl.
    by rewrite <- !app_assoc.
  - eapply forallb_weaken; [|exact Hall]. intros e He. by apply andb_true_iff in He as [? _].
  - eapply forallb_weaken; [|exact Hall]. intros e He. by apply andb_true_iff in He as [_ ?].
  - simpl. by rewrite cookies_form_opened.
  - intros j Hj. simpl. by rewrite session_state_form_opened.
Qed.

(** *** A sign-in that does not succeed *)

(** What the form makes of the directory's result: the callback's [str], if
    it returns one, takes its place. *)
Definition shown_result (callback : option (PyVal -> PyVal)) (result : PyVal) : PyVal :=
  match callback with
  | Some cb => if is_str (cb result) then cb result else result
  | None => result
  end.

Lemma run_callback_run callback result w :
  run_callback callback result w
  = (Ret (shown_result callback result), logs (callback_events callback result) w).
Proof.
  unfold run_callback, shown_result, callback_events.
  destruct callback; by rewrite ?logs_nil.
Qed.

(** [st.error] for a result that is no user. *)
Definition error_event (result : PyVal) : Event :=
  match result with
  | PStr _ => EvError result
  | _ => EvErrorUnexpected result
  end.

Lemma __createLoginForm_failure additionalCheck gl gi config callback w
    username password remember result :
  submitted (signin_result w) = Some (SigninEvent username password remember) ->
  ldap_login (ldap_auth self) (default getLoginUserName gl username) password
             (fun conn => default getInfo gi conn username) additionalCheck = result ->
  is_dict (shown_result callback result) = false ->
  __createLoginForm additionalCheck gl gi config callback w
  = (Ret PNone,
     with_session_state (<[remember_key := remember]> (session_state (form_opened w)))
       (logs (form_events config callback w (default getLoginUserName gl username) password
                          result
                ++ [error_event (shown_result callback result)])
             (form_opened w))).
Proof.
  intros Hsub Hldap Hres. unfold __createLoginForm, form_events.
  unfold mbind at 1, M_bind at 1. rewrite form_default_run.
  destruct (__getLoginConfig config) as [[cfg busy] icon]. simpl fst.
  mstep. rewrite signin_result_form_opened.
  unfold submitted in Hsub.
  destruct (signin_result w) eqn:Hsr; try discriminate;
    injection Hsub as Hsub; rewrite decrypt_result_run, Hsub; mstep;
    unfold __setRememberMe; mstep; rewrite Hldap;
    rewrite run_callback_run; cbv beta iota;
    (destruct (shown_result callback result) eqn:Hshown; try discriminate);
    unfold logs, with_session_state, log; simpl;
    by rewrite <- !app_assoc.
Qed.

Definition plain_event (e : Event) : bool :=
  negb (is_directory e || is_cookie_read e || is_cookie_write e || is_rerun e).

Lemma decrypt_events_plain result : forallb plain_event (decrypt_events result) = true.
Proof. unfold decrypt_events. by destruct (encryptor self), result. Qed.

Lemma callback_events_plain {A} (callback : option A) arg :
  forallb plain_event (callback_events callback arg) = true.
Proof. by destruct callback. Qed.

Lemma filter_directory_none (l : list Event) :
  forallb (fun e => negb (is_directory e)) l = true -> List.filter is_directory l = [].
Proof.
  induction l as [|x l IH]; [done|]. simpl. intros [Hx Hl]%andb_true_iff.
  destruct (is_directory x); [done|]. auto.
Qed.

Lemma plain_no_directory (l : list Event) :
  forallb plain_event l = true -> forallb (fun e => negb (is_directory e)) l = true.
Proof. apply forallb_weaken. intros e. unfold plain_event. by destruct e. Qed.

(** X6: a submitted sign-in whose result, after the callback, is no user (an
    error message from the directory or from the callback, or anything else
    that is no [dict]) leaves [login] unauthenticated: it returns [None]
    after one directory call and one [st.error], with no [st.rerun()], no
    cookie written, and the session state as it was but for the remember
    slot, which holds the flag submitted. *)
Theorem login_failed_sign_in
    additionalCheck gl gi config callback username password remember result (w : World) :
  misses additionalCheck (session_user w) ->
  misses additionalCheck (cookie_user w) ->
  submitted (signin_result w) = Some (SigninEvent username password remember) ->
  ldap_login (ldap_auth self) (default getLoginUserName gl username) password
             (fun conn => default getInfo gi conn username) additionalCheck = result ->
  is_dict (shown_result callback result) = false ->
  exists w' evs,
    login additionalCheck gl gi config callback w = (Ret PNone, w')
    /\ trace w' = trace w ++ evs ++ [error_event (shown_result callback result)]
    /\ List.filter is_directory evs
       = [EvLdapLogin (default getLoginUserName gl username) password]
    /\ forallb (fun e => negb (is_cookie_write e || is_rerun e)) evs = true
    /\ cookies w' = cookies w
    /\ session_state w' !! remember_key = Some remember
    /\ (forall j, j <> remember_key -> session_state w' !! j = session_state w !! j).
Proof.
  intros Hs Hc Hsub Hldap Hres. rewrite login_miss_run by done.
  unfold login_form_stage. unfold mbind at 1, M_bind at 1.
  rewrite (__createLoginForm_failure _ _ _ _ _ _ username password remember result) by done.
  simpl negb. cbv iota.
  set (w3 := missed additionalCheck w).
  set (ln := default getLoginUserName gl username).
  eexists _, (miss_events additionalCheck w ++ form_events config callback w3 ln password result).
  split; [reflexivity|].
  split; [|split; [|split; [|split; [|split]]]].
  - change (trace (with_session_state ?ss (logs ?l ?W))) with (trace W ++ l).
    rewrite trace_form_opened.
    change (trace w3) with (trace w ++ miss_events additionalCheck w).
    by rewrite <- !app_assoc.
  - rewrite List.filter_app. rewrite (filter_directory_none (miss_events _ _)).
    2:{ eapply forallb_weaken; [|apply miss_events_quiet].
        intros e. unfold quiet_event. by destruct e. }
    unfold form_events. rewrite !List.filter_app.
    rewrite (filter_directory_none (decrypt_events _))
      by apply plain_no_directory, decrypt_events_plain.
    by rewrite (filter_directory_none (callback_events _ _))
      by apply plain_no_directory, callback_events_plain.
  - rewrite forallb_app. apply andb_true_iff. split.
    + eapply forallb_weaken; [|apply miss_events_quiet].
      intros e. unfold quiet_event. by destruct e.
    + unfold form_events. rewrite !forallb_app.
      repeat (apply andb_true_iff; split); try done.
      * eapply forallb_weaken; [|apply decrypt_events_plain].
        intros e. unfold plain_event. by destruct e.
      * eapply forallb_weaken; [|apply callback_events_plain].
        intros e. unfold plain_event. by destruct e.
  - simpl. by rewrite cookies_form_opened.
  - simpl. by rewrite lookup_insert_eq.
  - intros j Hj. simpl. rewrite lookup_insert_ne by done.
    by rewrite session_state_form_opened.
Qed.

(** ** Signing out *)

Definition callback_cancels (callback : option (UiEvent -> PyVal)) : bool :=
  match callback with
  | None => false
  | Some cb => py_eq_str (cb SignoutEvent) "cancel"
  end.

Definition signout_events (config : Config) (callback : option (UiEvent -> PyVal)) (w : World)
  : list Event :=
  [EvSignoutForm (__getLogoutConfig config).1.1]
    ++ decrypt_events (signout_result w)
    ++ match callback with None => [] | Some _ => [EvSignoutCallback] end.

(** The world after a sign-out that goes through, up to [st.rerun()]. *)
Definition signed_out (config : Config) (callback : option (UiEvent -> PyVal)) (w : World)
  : World :=
  let w1 := logs (signout_events config callback w) w in
  let w2 :=
    match user_key with
    | Some k => with_session_state (<[k := PNone]> (session_state w1)) w1
    | None => w1
    end in
  log EvRerun (slept (__getLogoutConfig config).2 (cookie_deleted w2)).

Lemma createLogoutForm_run config callback w :
  submitted (signout_result w) = Some SignoutEvent ->
  callback_cancels callback = false ->
  (0 <= (__getLogoutConfig config).2)%Q ->
  delay_ok ->
  createLogoutForm config callback w = (Raise RerunException, signed_out config callback w).
Proof.
  intros Hsub Hcb Hsec Hd. unfold createLogoutForm, signed_out, signout_events.
  destruct (__getLogoutConfig config) as [[cfg busy] sec]. simpl in Hsec. simpl fst. simpl snd.
  mstep. unfold submitted in Hsub.
  assert (forall w0 : World,
            (__setUser PNone;; __deleteCookie;; sleep sec;; rerun) w0
            = (@Raise unit RerunException,
               log EvRerun
                 (slept sec
                    (cookie_deleted
                       match user_key with
                       | Some k => with_session_state (<[k := PNone]> (session_state w0)) w0
                       | None => w0
                       end)))) as Htail.
  { intros w0. unfold mbind at 1, M_bind at 1.
    assert (__setUser PNone w0
            = (Ret tt, match user_key with
                       | Some k => with_session_state (<[k := PNone]> (session_state w0)) w0
                       | None => w0
                       end)) as ->.
    { unfold __setUser. mstep. by destruct user_key. }
    unfold mbind at 1, M_bind at 1. rewrite __deleteCookie_run by done.
    unfold mbind at 1, M_bind at 1. rewrite sleep_run by done.
    reflexivity. }
  destruct (signout_result w) eqn:Hres; try discriminate;
    injection Hsub as Hsub; rewrite decrypt_result_run, Hsub; cbv beta iota;
    (destruct callback as [cb|]; simpl in Hcb; mstep; rewrite ?Hcb;
     unfold mbind, M_bind in Htail; rewrite Htail;
     by rewrite ?log_logs, ?logs_logs, ?logs_nil, ?app_nil_r).
Qed.

Lemma session_state_signed_out config callback w :
  session_state (signed_out config callback w)
  = match user_key with
    | Some k => <[k := PNone]> (session_state w)
    | None => session_state w
    end.
Proof.
  unfold signed_out. simpl. rewrite session_state_cookie_deleted. by destruct user_key.
Qed.

Lemma cookies_signed_out config callback w :
  cookies (signed_out config callback w)
  = match cookie_configs self with
    | Some cfg => delete (CookieConfig.name cfg) (cookies w)
    | None => cookies w
    end.
Proof.
  unfold signed_out. simpl.
  destruct (cookie_configs self) as [cfg|] eqn:Hcfg.
  - rewrite (cookies_cookie_deleted cfg) by done. by destruct user_key.
  - unfold cookie_deleted. rewrite Hcfg. by destruct user_key.
Qed.

(** X7: a submitted sign-out that the callback does not cancel puts [None]
    into the user slot, removes the configured cookie and no other, waits,
    and ends in [st.rerun()]; the directory is not called. *)
Theorem createLogoutForm_signs_out config callback (w : World) :
  submitted (signout_result w) = Some SignoutEvent ->
  callback_cancels callback = false ->
  (0 <= (__getLogoutConfig config).2)%Q ->
  delay_ok ->
  exists w' evs,
    createLogoutForm config callback w = (Raise RerunException, w')
    /\ (forall k, user_key = Some k -> session_state w' = <[k := PNone]> (session_state w))
    /\ (forall cfg,
          cookie_configs self = Some cfg ->
          cookies w' = delete (CookieConfig.name cfg) (cookies w))
    /\ (cookie_configs self = None -> cookies w' = cookies w)
    /\ trace w' = trace w ++ evs ++ [EvSleep (__getLogoutConfig config).2; EvRerun]
    /\ forallb (fun e => negb (is_directory e)) evs = true.
Proof.
  intros Hsub Hcb Hsec Hd.
  exists (signed_out config callback w).
  exists (signout_events config callback w
            ++ match cookie_configs self with
               | Some cfg =>
                   EvCookieGetAll
                     :: match cookies w !! CookieConfig.name cfg with
                        | Some _ => [EvCookieRemove (CookieConfig.name cfg);
                                     EvSleep (CookieConfig.delay_sec cfg)]
                        | None => []
                        end
               | None => []
               end).
  split; [by apply createLogoutForm_run|].
  split; [intros k Hk; by rewrite session_state_signed_out, Hk|].
  split; [intros cfg Hcfg; by rewrite cookies_signed_out, Hcfg|].
  split; [intros Hcfg; by rewrite cookies_signed_out, Hcfg|].
  split.
  - unfold signed_out, cookie_deleted. simpl.
    destruct (cookie_configs self) as [cfg|]; destruct user_key; simpl;
      try destruct (cookies w !! CookieConfig.name cfg); simpl;
      rewrite <- ?app_assoc; simpl; by rewrite <- ?app_assoc.
  - rewrite forallb_app. apply andb_true_iff. split.
    + unfold signout_events. rewrite !forallb_app. simpl.
      rewrite (plain_no_directory _ (decrypt_events_plain _)). by destruct callback.
    + destruct (cookie_configs self) as [cfg|]; [|done].
      by destruct (cookies w !! CookieConfig.name cfg).
Qed.

(** X8: after a sign-out that went through, a call of [login] in a world
    with the session state and cookies it left, and no sign-in submitted,
    returns [None]: the user is signed out for the next cycle, whatever the
    additional check would say. *)
Theorem logout_then_login config callback (w : World) :
  submitted (signout_result w) = Some SignoutEvent ->
  callback_cancels callback = false ->
  (0 <= (__getLogoutConfig config).2)%Q ->
  delay_ok ->
  is_Some user_key ->
  exists w',
    createLogoutForm config callback w = (Raise RerunException, w')
    /\ forall additionalCheck gl gi config' callback' (w2 : World),
         session_state w2 = session_state w' ->
         cookies w2 = cookies w' ->
         no_signin w2 ->
         (login additionalCheck gl gi config' callback' w2).1 = Ret PNone.
Proof.
  intros Hsub Hcb Hsec Hd [k Hk].
  exists (signed_out config callback w). split; [by apply createLogoutForm_run|].
  intros ac gl gi config' callback' w2 Hss Hck Hno.
  assert (session_user w2 = PNone) as Hsu.
  { apply (session_user_empty k); [done|]. right.
    by rewrite Hss, session_state_signed_out, Hk, lookup_insert_eq. }
  assert (cookie_user w2 = PNone) as Hcu.
  { apply cookie_user_empty. intros cfg Hcfg.
    by rewrite Hck, cookies_signed_out, Hcfg, lookup_delete_eq. }
  destruct (login_unauthenticated_run ac gl gi config' callback' w2) as [w3 ->]; try done.
  - unfold misses. by rewrite Hsu.
  - unfold misses. by rewrite Hcu.
Qed.

(** ** What [login] and [createLogoutForm] leave alone *)

(** The session slots and the cookie the engine calls its own. *)
Definition own_slot (j : string) : Prop :=
  user_key = Some j \/ j = remember_key \/ j = auth_result_key.

Definition own_cookie (n : string) : Prop :=
  exists cfg, cookie_configs self = Some cfg /\ n = CookieConfig.name cfg.

(** [w'] comes after [w]: the trace has grown by events that satisfy [P],
    the form's result is the same, and the slots and cookies that are not the
    engine's own hold what they held. *)
Definition steps (P : Event -> bool) (w w' : World) : Prop :=
  (exists evs, trace w' = trace w ++ evs /\ forallb P evs = true)
  /\ signin_result w' = signin_result w
  /\ (forall j, ~ own_slot j -> session_state w' !! j = session_state w !! j)
  /\ (forall n, ~ own_cookie n -> cookies w' !! n = cookies w !! n).

Lemma steps_refl P w : steps P w w.
Proof.
  repeat split; try done. exists []. by rewrite app_nil_r.
Qed.

Lemma steps_trans P w1 w2 w3 : steps P w1 w2 -> steps P w2 w3 -> steps P w1 w3.
Proof.
  intros ((evs1 & Ht1 & Hp1) & Hf1 & Hs1 & Hc1) ((evs2 & Ht2 & Hp2) & Hf2 & Hs2 & Hc2).
  repeat split.
  - exists (evs1 ++ evs2). rewrite Ht2, Ht1, <- app_assoc. split; [done|].
    by rewrite forallb_app, Hp1, Hp2.
  - congruence.
  - intros j Hj. by rewrite Hs2, Hs1.
  - intros n Hn. by rewrite Hc2, Hc1.
Qed.

Lemma steps_logs P evs w : forallb P evs = true -> steps P w (logs evs w).
Proof. intros HP. repeat split; try done. by exists evs. Qed.

Lemma steps_log P e w : P e = true -> steps P w (log e w).
Proof. intros HP. apply (steps_logs P [e]). simpl. by rewrite HP. Qed.

Lemma steps_slept P sec w : P (EvSleep sec) = true -> steps P w (slept sec w).
Proof.
  intros HP. repeat split; try done. exists [EvSleep sec]. simpl. by rewrite HP.
Qed.

Lemma steps_insert_slot P k v w :
  own_slot k -> steps P w (with_session_state (<[k := v]> (session_state w)) w).
Proof.
  intros Hk. repeat split; try done.
  - exists []. by rewrite app_nil_r.
  - intros j Hj. simpl. rewrite lookup_insert_ne; [done|]. by intros ->.
Qed.

Lemma steps_delete_slot P k w :
  own_slot k -> steps P w (with_session_state (delete k (session_state w)) w).
Proof.
  intros Hk. repeat split; try done.
  - exists []. by rewrite app_nil_r.
  - intros j Hj. simpl. rewrite lookup_delete_ne; [done|]. by intros ->.
Qed.

Lemma steps_insert_cookie P n v w :
  own_cookie n -> steps P w (with_cookies (<[n := v]> (cookies w)) w).
Proof.
  intros Hn. repeat split; try done.
  - exists []. by rewrite app_nil_r.
  - intros j Hj. simpl. rewrite lookup_insert_ne; [done|]. by intros ->.
Qed.

Lemma steps_delete_cookie P n w :
  own_cookie n -> steps P w (with_cookies (delete n (cookies w)) w).
Proof.
  intros Hn. repeat split; try done.
  - exists []. by rewrite app_nil_r.
  - intros j Hj. simpl. rewrite lookup_delete_ne; [done|]. by intros ->.
Qed.

Lemma steps_remember_settled P w : steps P w (remember_settled w).
Proof.
  unfold remember_settled.
  destruct (session_state w !! remember_key) as [[]|];
    (apply steps_refl || (apply steps_insert_slot; right; by left)).
Qed.

Lemma steps_form_opened P w : steps P w (form_opened w).
Proof.
  unfold form_opened. destruct (cookie_configs self); [|apply steps_refl].
  apply steps_remember_settled.
Qed.

(** A computation keeps to [P] at [w] when its final world comes after [w],
    however it ends. *)
Definition keeps {A} (P : Event -> bool) (m : M A) (w : World) : Prop :=
  steps P w (m w).2.

Lemma keeps_bind {A B} P (m : M A) (f : A -> M B) w :
  keeps P m w ->
  (forall a w1, m w = (Ret a, w1) -> steps P w w1 -> keeps P (f a) w1) ->
  keeps P (m ≫= f) w.
Proof.
  unfold keeps, mbind, M_bind. intros Hm Hf.
  destruct (m w) as [[a|e] w1] eqn:E; simpl in *; [|done].
  eapply steps_trans; [exact Hm|]. by apply Hf.
Qed.

(** Events that are not calls of the directory are allowed by [P]. *)
Definition allows_quiet (P : Event -> bool) : Prop :=
  forall e, is_directory e = false -> P e = true.

Section Keeps.
Variable P : Event -> bool.
Hypothesis HP : allows_quiet P.

Lemma keeps___getRememberMe w : keeps P __getRememberMe w.
Proof. unfold keeps. rewrite __getRememberMe_run. apply steps_remember_settled. Qed.

Lemma keeps___setUser user w : keeps P (__setUser user) w.
Proof.
  unfold keeps, __setUser. mstep. destruct user_key as [k|] eqn:Hk; simpl.
  - apply steps_insert_slot. by left.
  - apply steps_refl.
Qed.

Lemma keeps_sleep sec w : keeps P (sleep sec) w.
Proof.
  unfold keeps, sleep. destruct (Qltb sec 0); simpl; [apply steps_refl|].
  apply steps_slept. by apply HP.
Qed.

Lemma keeps___setCookie user w : keeps P (__setCookie user) w.
Proof.
  unfold __setCookie.
  destruct (cookie_configs self) as [cfg|] eqn:Hcfg;
    [|destruct user; apply steps_refl].
  assert (keeps P
            (remember_me ← __getRememberMe;
             if negb remember_me then mret tt
             else
               token ← __tokenEncode cfg user;
               w0 ← get_world;
               emit (EvCookieSet (CookieConfig.name cfg) token
                       (utcnow w0 + timedelta_days (CookieConfig.expiry_days cfg))%Q);;
               set_cookies (<[CookieConfig.name cfg := PStr token]> (cookies w0));;
               sleep (CookieConfig.delay_sec cfg)) w) as Hbody.
  { apply keeps_bind; [apply keeps___getRememberMe|].
    intros [] w1 _ _; [|apply steps_refl]. simpl negb. cbv iota.
    apply keeps_bind; [apply steps_refl|]. intros token w2 [= <- <-] _.
    apply keeps_bind; [apply steps_refl|]. intros w0 w3 [= <- <-] _.
    apply keeps_bind; [apply steps_log; by apply HP|]. intros [] w4 E _.
    apply (f_equal snd) in E. simpl in E. subst w4.
    apply keeps_bind; [|intros; apply keeps_sleep].
    apply (steps_insert_cookie P (CookieConfig.name cfg) _ (log (EvCookieSet _ _ _) w1)).
    by exists cfg. }
  destruct user; (apply steps_refl || exact Hbody).
Qed.

Lemma keeps_renew_cookie user w : keeps P (renew_cookie user) w.
Proof.
  unfold renew_cookie. destruct (cookie_configs self) as [cfg|]; [|apply steps_refl].
  destruct (CookieConfig.auto_renewal cfg); [apply keeps___setCookie | apply steps_refl].
Qed.

Lemma keeps___checkReauthentication user additionalCheck w :
  keeps P (__checkReauthentication user additionalCheck) w.
Proof.
  unfold __checkReauthentication.
  destruct (is_dict user); simpl; [|apply steps_refl].
  destruct additionalCheck as [check|].
  - apply keeps_bind; [apply steps_log; by apply HP|]. intros _ w1 _ _.
    destruct (py_eq_True (check None user)); simpl; [|apply steps_refl].
    apply keeps_bind; [apply keeps_renew_cookie|]. intros. apply steps_refl.
  - apply keeps_bind; [apply keeps_renew_cookie|]. intros. apply steps_refl.
Qed.

Lemma keeps___getCookie w : keeps P __getCookie w.
Proof.
  unfold keeps. rewrite __getCookie_run. apply steps_logs.
  eapply forallb_weaken; [|apply no_directory_cookie_read].
  intros e He. apply HP. by apply negb_true_iff.
Qed.

Lemma keeps___deleteCookie w : keeps P __deleteCookie w.
Proof.
  unfold __deleteCookie. destruct (cookie_configs self) as [cfg|] eqn:Hcfg; [|apply steps_refl].
  apply keeps_bind; [apply steps_log; by apply HP|]. intros _ w1 _ _.
  apply keeps_bind; [apply steps_refl|]. intros w0 w2 [= <- <-] _.
  destruct (cookies w1 !! CookieConfig.name cfg); [|apply steps_refl].
  apply keeps_bind; [apply steps_log; by apply HP|]. intros [] w3 E _.
  apply (f_equal snd) in E. simpl in E. subst w3.
  apply keeps_bind; [|intros; apply keeps_sleep].
  apply (steps_delete_cookie P (CookieConfig.name cfg) (log (EvCookieRemove _) w1)).
  by exists cfg.
Qed.

Lemma keeps_rerun (A : Type) (w : World) : keeps (A := A) P rerun w.
Proof. apply steps_log. by apply HP. Qed.

Lemma keeps_try_finally_rerun (user : PyVal) (w : World) :
  keeps P (try_finally (mret user) rerun) w.
Proof. apply steps_log. by apply HP. Qed.

(** [login], given what the form does. *)
Lemma keeps_login additionalCheck gl gi config callback w :
  (forall w1,
     signin_result w1 = signin_result w ->
     keeps P (__createLoginForm additionalCheck gl gi config callback) w1) ->
  keeps P (login additionalCheck gl gi config callback) w.
Proof.
  intros Hform. unfold login.
  apply keeps_bind; [unfold keeps; rewrite __getUser_run; apply steps_refl|].
  intros su w1 _ Hw1.
  apply keeps_bind; [apply keeps___checkReauthentication|].
  intros [] w2 _ Hw2; [apply steps_refl|].
  apply keeps_bind; [apply keeps___getCookie|].
  intros cu w3 _ Hw3.
  apply keeps_bind; [apply keeps___checkReauthentication|].
  intros [] w4 _ Hw4.
  { apply keeps_bind; [apply keeps___setUser|]. intros. apply steps_refl. }
  apply keeps_bind; [apply keeps_sleep|]. intros _ w5 _ Hw5.
  apply keeps_bind.
  { apply Hform.
    destruct Hw1 as (_ & E1 & _), Hw2 as (_ & E2 & _), Hw3 as (_ & E3 & _),
             Hw4 as (_ & E4 & _), Hw5 as (_ & E5 & _). congruence. }
  intros user w6 _ _.
  destruct (negb (is_dict user)); [apply steps_refl|].
  apply keeps_bind; [apply keeps___setUser|]. intros _ w7 _ _.
  apply keeps_bind; [apply keeps___setCookie|]. intros _ w8 _ _.
  apply keeps_try_finally_rerun.
Qed.

Lemma keeps_createLoginForm_idle additionalCheck gl gi config callback w :
  no_signin w -> keeps P (__createLoginForm additionalCheck gl gi config callback) w.
Proof.
  intros Hno. unfold keeps. rewrite __createLoginForm_idle by done. simpl.
  eapply steps_trans; [apply steps_form_opened|].
  apply steps_logs. unfold idle_form_events. simpl. rewrite HP by done. simpl.
  destruct (signin_result w); try done.
  all: eapply forallb_weaken; [|apply decrypt_events_plain].
  all: intros e He; apply HP; unfold plain_event in He; by destruct e.
Qed.

Lemma keeps_decrypt_result result w : keeps P (decrypt_result result) w.
Proof.
  unfold keeps. rewrite decrypt_result_run. apply steps_logs.
  eapply forallb_weaken; [|apply decrypt_events_plain].
  intros e He. apply HP. unfold plain_event in He. by destruct e.
Qed.

Lemma keeps_createLogoutForm config callback w :
  keeps P (createLogoutForm config callback) w.
Proof.
  unfold createLogoutForm. destruct (__getLogoutConfig config) as [[cfg busy] sec].
  apply keeps_bind; [apply steps_log; by apply HP|]. intros [] w1 _ _.
  apply keeps_bind; [apply steps_refl|]. intros w0 w2 _ _.
  assert (keeps P
            (result ← decrypt_result (signout_result w0);
             match getEvent result with
             | SignoutEvent =>
                 cancelled ← match callback with
                             | None => mret false
                             | Some cb =>
                                 emit EvSignoutCallback;;
                                 mret (py_eq_str (cb SignoutEvent) "cancel")
                             end;
                 if cancelled : bool then mret tt
                 else __setUser PNone;; __deleteCookie;; sleep sec;; rerun
             | _ => mret tt
             end) w2) as Hbody.
  { apply keeps_bind; [apply keeps_decrypt_result|]. intros r w3 _ _.
    destruct (getEvent r); try apply steps_refl.
    apply keeps_bind.
    { destruct callback; [|apply steps_refl].
      apply keeps_bind; [apply steps_log; by apply HP|]. intros. apply steps_refl. }
    intros [] w4 _ _; [apply steps_refl|].
    apply keeps_bind; [apply keeps___setUser|]. intros [] w5 _ _.
    apply keeps_bind; [apply keeps___deleteCookie|]. intros [] w6 _ _.
    apply keeps_bind; [apply keeps_sleep|]. intros [] w7 _ _.
    apply keeps_rerun. }
  destruct (signout_result w0); (apply steps_refl || exact Hbody).
Qed.

End Keeps.

Lemma allows_quiet_all : allows_quiet (fun _ => true).
Proof. by intros e _. Qed.

Lemma allows_quiet_no_directory : allows_quiet (fun e => negb (is_directory e)).
Proof. intros e He. by rewrite He. Qed.

(** The form, whatever was submitted, when every event is allowed. *)
Lemma keeps_createLoginForm additionalCheck gl gi config callback w :
  keeps (fun _ => true) (__createLoginForm additionalCheck gl gi config callback) w.
Proof.
  unfold __createLoginForm.
  apply keeps_bind.
  { unfold keeps. rewrite form_default_run. apply steps_form_opened. }
  intros dflt w1 _ _.
  destruct (__getLoginConfig config) as [[cfg busy] icon].
  apply keeps_bind; [by apply steps_log|]. intros [] w2 _ _.
  apply keeps_bind; [apply steps_refl|]. intros w0 w3 _ _.
  assert (keeps (fun _ => true)
            (result ← decrypt_result (signin_result w0);
             match getEvent result with
             | SigninEvent username password remember =>
                 __setRememberMe remember;;
                 emit (EvLdapLogin (default getLoginUserName gl username) password);;
                 result ← run_callback callback
                            (ldap_login (ldap_auth self) (default getLoginUserName gl username)
                               password (fun conn => default getInfo gi conn username)
                               additionalCheck);
                 match result with
                 | PStr _ => emit (EvError result);; mret PNone
                 | PDict _ => del_session_state auth_result_key;; mret result
                 | _ => emit (EvErrorUnexpected result);; mret PNone
                 end
             | _ => mret PNone
             end) w3) as Hbody.
  { apply keeps_bind; [apply keeps_decrypt_result, allows_quiet_all|]. intros r w4 _ _.
    destruct (getEvent r) as [username password remember| |]; try apply steps_refl.
    apply keeps_bind.
    { apply steps_insert_slot. right. by left. }
    intros [] w5 _ _.
    apply keeps_bind; [by apply steps_log|]. intros [] w6 _ _.
    apply keeps_bind.
    { unfold keeps. rewrite run_callback_run. by apply steps_logs, forallb_forall. }
    intros result w7 _ _.
    assert (keeps (fun _ => true) (del_session_state auth_result_key;; mret result) w7)
      as Hdel.
    { apply keeps_bind; [|intros; apply steps_refl].
      unfold keeps, del_session_state. mstep.
      destruct (session_state w7 !! auth_result_key); simpl; [|apply steps_refl].
      apply steps_delete_slot. right. by right. }
    destruct result; try exact Hdel;
      (apply keeps_bind; [by apply steps_log | intros; apply steps_refl]). }
  destruct (signin_result w0); (apply steps_refl || exact Hbody).
Qed.

(** X9: [login] and [createLogoutForm] touch nothing but their own: every
    session slot other than the user, remember and form-result slots, and
    every cookie other than the configured one, holds afterwards what it held
    before, however the call ends. *)
Theorem engine_keeps_to_its_own_slots
    additionalCheck gl gi config callback config' callback' (w : World) :
  (forall j,
     user_key <> Some j -> j <> remember_key -> j <> auth_result_key ->
     session_state (login additionalCheck gl gi config callback w).2 !! j
     = session_state w !! j
     /\ session_state (createLogoutForm config' callback' w).2 !! j = session_state w !! j)
  /\ (forall n,
        (forall cfg, cookie_configs self = Some cfg -> n <> CookieConfig.name cfg) ->
        cookies (login additionalCheck gl gi config callback w).2 !! n = cookies w !! n
        /\ cookies (createLogoutForm config' callback' w).2 !! n = cookies w !! n).
Proof.
  pose proof (keeps_login (fun _ => true) allows_quiet_all additionalCheck gl gi config callback w
                (fun w1 _ => keeps_createLoginForm additionalCheck gl gi config callback w1))
    as (_ & _ & Hs & Hc).
  pose proof (keeps_createLogoutForm (fun _ => true) allows_quiet_all config' callback' w)
    as (_ & _ & Hs' & Hc').
  split.
  - intros j Hu Hr Ha.
    assert (~ own_slot j) as Hj by (intros [?|[?|?]]; congruence).
    split; [by apply Hs | by apply Hs'].
  - intros n Hn.
    assert (~ own_cookie n) as Hno by (intros (cfg & Hcfg & ->); by apply (Hn cfg)).
    split; [by apply Hc | by apply Hc'].
Qed.

(** X10: [login] calls the directory only for a submitted sign-in: when
    nothing was submitted, or what was submitted is no sign-in, the calls it
    makes include none of the directory, whatever the session state and the
    cookies hold and however it ends; [createLogoutForm] never calls it. *)
Theorem directory_only_on_sign_in
    additionalCheck gl gi config callback config' callback' (w : World) :
  (no_signin w ->
   exists evs,
     trace (login additionalCheck gl gi config callback w).2 = trace w ++ evs
     /\ forallb (fun e => negb (is_directory e)) evs = true)
  /\ exists evs,
       trace (createLogoutForm config' callback' w).2 = trace w ++ evs
       /\ forallb (fun e => negb (is_directory e)) evs = true.
Proof.
  split.
  - intros Hno.
    refine (proj1 (keeps_login _ allows_quiet_no_directory additionalCheck gl gi config
                     callback w _)).
    intros w1 Hw1. apply keeps_createLoginForm_idle; [apply allows_quiet_no_directory|].
    intros u p r. unfold no_signin in Hno. rewrite Hw1. apply Hno.
  - exact (proj1 (keeps_createLogoutForm _ allows_quiet_no_directory config' callback' w)).
Qed.

(** ** What [login] returns *)

Lemma __setCookie_session user w j :
  j <> remember_key ->
  session_state (__setCookie user w).2 !! j = session_state w !! j.
Proof.
  intros Hj.
  assert (session_state (remember_settled w) !! j = session_state w !! j) as Hrs.
  { unfold remember_settled.
    destruct (session_state w !! remember_key) as [[]|]; simpl; by rewrite ?lookup_insert_ne. }
  unfold __setCookie.
  destruct (cookie_configs self) as [cfg|]; [|by destruct user].
  assert (forall m : M unit,
            m = (remember_me ← __getRememberMe;
                 if negb remember_me then mret tt
                 else
                   token ← __tokenEncode cfg user;
                   w0 ← get_world;
                   emit (EvCookieSet (CookieConfig.name cfg) token
                           (utcnow w0 + timedelta_days (CookieConfig.expiry_days cfg))%Q);;
                   set_cookies (<[CookieConfig.name cfg := PStr token]> (cookies w0));;
                   sleep (CookieConfig.delay_sec cfg)) ->
            session_state (m w).2 !! j = session_state w !! j) as Hbody.
  { intros m ->. unfold mbind at 1, M_bind at 1. rewrite __getRememberMe_run.
    destruct (remember_flag w); simpl; [|done].
    unfold __tokenEncode. mstep. unfold sleep.
    by destruct (Qltb (CookieConfig.delay_sec cfg) 0). }
  destruct user; try done; by apply Hbody.
Qed.

Lemma __checkReauthentication_true user additionalCheck w w1 :
  __checkReauthentication user additionalCheck w = (Ret true, w1) ->
  is_dict user = true
  /\ forall j, j <> remember_key -> session_state w1 !! j = session_state w !! j.
Proof.
  unfold __checkReauthentication.
  destruct (is_dict user); simpl; [|discriminate]. intros H. split; [done|].
  intros j Hj.
  assert (forall w0 w0',
            (renew_cookie user;; mret true) w0 = (Ret true, w0') ->
            session_state w0' !! j = session_state w0 !! j) as Hrenew.
  { intros w0 w0' E. unfold mbind, M_bind in E.
    assert (session_state (renew_cookie user w0).2 !! j = session_state w0 !! j) as Hs.
    { unfold renew_cookie. destruct (cookie_configs self) as [cfg|]; [|done].
      destruct (CookieConfig.auto_renewal cfg); [by apply __setCookie_session | done]. }
    destruct (renew_cookie user w0) as [[[]|e] w2]; [|discriminate].
    injection E as <-. exact Hs. }
  destruct additionalCheck as [check|].
  - unfold mbind at 1, M_bind at 1 in H. simpl in H.
    destruct (py_eq_True (check None user)); simpl in H; [|discriminate].
    by apply Hrenew in H.
  - by apply Hrenew in H.
Qed.

(** X11: what [login] returns is [None] or a [dict], never an error message;
    and a [dict] it returns is the user the session state holds when the call
    is over (the user and remember slots being different ones). *)
Theorem login_returns_the_session_user
    additionalCheck gl gi config callback (w w' : World) (v : PyVal) :
  login additionalCheck gl gi config callback w = (Ret v, w') ->
  v = PNone
  \/ (is_dict v = true
      /\ forall k, user_key = Some k -> k <> remember_key -> session_state w' !! k = Some v).
Proof.
  rewrite login_stages. unfold mbind at 1, M_bind at 1. rewrite __getUser_run.
  unfold mbind at 1, M_bind at 1.
  destruct (__checkReauthentication (session_user w) additionalCheck w)
    as [[[]|e] w1] eqn:E1; [| |discriminate].
  - intros [= <- <-]. apply __checkReauthentication_true in E1 as [Hd Hs].
    right. split; [done|]. intros k Hk Hkr. rewrite Hs by done.
    unfold session_user in *. rewrite (user_slot_key k Hk) in *.
    by destruct (session_state w !! k) as [[]|].
  - unfold login_after_session. unfold mbind at 1, M_bind at 1. rewrite __getCookie_run.
    unfold mbind at 1, M_bind at 1.
    destruct (__checkReauthentication (cookie_user w1) additionalCheck _)
      as [[[]|e] w2] eqn:E2; [| |discriminate].
    + apply __checkReauthentication_true in E2 as [Hd _].
      unfold mbind, M_bind, __setUser. simpl.
      destruct user_key as [k|] eqn:Hk; simpl; intros [= <- <-].
      * right. split; [done|]. intros k' [= <-] _. simpl. by rewrite lookup_insert_eq.
      * right. split; [done|]. by intros k' [=].
    + unfold mbind at 1, M_bind at 1.
      destruct (sleep 0.5 w2) as [[[]|e] w3]; [|discriminate].
      unfold mbind at 1, M_bind at 1.
      destruct (__createLoginForm _ _ _ _ _ w3) as [[user|e] w4]; [|discriminate].
      destruct (negb (is_dict user)); [intros [= <- <-]; by left|].
      unfold mbind at 1, M_bind at 1.
      destruct (__setUser user w4) as [[[]|e] w5]; [|discriminate].
      unfold mbind at 1, M_bind at 1.
      destruct (__setCookie user w5) as [[[]|e] w6]; [|discriminate].
      discriminate.
Qed.

(** ** The token codec, past the expiry date *)

(** X12: a token that [__tokenEncode] issues gives no user once the clock has
    passed the expiry date put into it, and the reason printed is that the
    cookie expired; with a negative number of days configured that is so from
    the moment of issue ([jwt.decode] giving back the payload that
    [jwt.encode] signed). *)
Theorem token_expires (cfg : CookieConfig.t) (d : Dict) (w_enc w_dec : World) :
  jwt_decode (issued_token cfg (PDict d) (utcnow w_enc)) (CookieConfig.key cfg)
  = Some (PDict [("user", PDict d);
                 ("exp_date",
                  PFloat (utcnow w_enc + timedelta_days (CookieConfig.expiry_days cfg))%Q)]) ->
  exists token,
    __tokenEncode cfg (PDict d) w_enc = (Ret token, w_enc)
    /\ ((utcnow w_enc + timedelta_days (CookieConfig.expiry_days cfg) < utcnow w_dec)%Q ->
        __tokenDecode cfg (PStr token) w_dec
        = (Ret PNone, log (EvPrint "Token decode error: Cookie expired") w_dec))
    /\ ((CookieConfig.expiry_days cfg < 0)%Q ->
        (utcnow w_enc <= utcnow w_dec)%Q ->
        __tokenDecode cfg (PStr token) w_dec
        = (Ret PNone, log (EvPrint "Token decode error: Cookie expired") w_dec)).
Proof.
  intros Hjwt. exists (issued_token cfg (PDict d) (utcnow w_enc)).
  split; [apply __tokenEncode_run|].
  assert ((utcnow w_enc + timedelta_days (CookieConfig.expiry_days cfg) < utcnow w_dec)%Q ->
          __tokenDecode cfg (PStr (issued_token cfg (PDict d) (utcnow w_enc))) w_dec
          = (Ret PNone, log (EvPrint "Token decode error: Cookie expired") w_dec)) as Hexp.
  { intros Hlt. rewrite __tokenDecode_run.
    unfold decoded, decode_prints, __tokenDecode_try. rewrite Hjwt. simpl.
    apply Qltb_lt in Hlt. by rewrite Hlt. }
  split; [exact Hexp|].
  intros Hneg Hnow. apply Hexp. unfold timedelta_days.
  lra.
Qed.

(** ** The form configurations *)

Lemma dict_get_pop_eq (d : Dict) k : dict_get (dict_pop d k) k = None.
Proof.
  induction d as [|[k' v] d IH]; [done|]. simpl.
  destruct (String.eqb k' k) eqn:E; [done|]. simpl. by rewrite E.
Qed.

Lemma dict_get_pop_ne (d : Dict) k j : k <> j -> dict_get (dict_pop d k) j = dict_get d j.
Proof.
  intros Hne. induction d as [|[k' v] d IH]; [done|]. simpl.
  destruct (String.eqb k' k) eqn:E.
  - apply String.eqb_eq in E as ->.
    destruct (String.eqb k j) eqn:E'; [|done]. by apply String.eqb_eq in E'.
  - simpl. by rewrite IH.
Qed.

Lemma dict_get_set_eq (d : Dict) k v : dict_get (dict_set d k v) k = Some v.
Proof.
  induction d as [|[k' v'] d IH]; simpl; [by rewrite String.eqb_refl|].
  destruct (String.eqb k' k) eqn:E; simpl; by rewrite E.
Qed.

Lemma dict_get_set_ne (d : Dict) k j v : k <> j -> dict_get (dict_set d k v) j = dict_get d j.
Proof.
  intros Hne. induction d as [|[k' v'] d IH]; simpl.
  - destruct (String.eqb k j) eqn:E; [|done]. by apply String.eqb_eq in E.
  - destruct (String.eqb k' k) eqn:E; simpl; [|by rewrite IH].
    apply String.eqb_eq in E as ->.
    destruct (String.eqb k j) eqn:E'; [|done]. by apply String.eqb_eq in E'.
Qed.

(** X13: the configuration [__getLogoutConfig] hands to the sign-out form has
    no [busy_message] and no [sleep_sec] left in it.  A legacy [message] that
    is a [str] becomes the [title] when no title is given, and is dropped
    when it is no [str]; a given title stays, and so does every other key.
    The wait is the [sleep_sec] given when that is a [float], and one second
    otherwise, so for an integer too. *)
Theorem getLogoutConfig_result (config : Config) :
  let d := config_dict config in
  let cfg := (__getLogoutConfig config).1.1 in
  let sleep_sec := (__getLogoutConfig config).2 in
  dict_get cfg "busy_message" = None
  /\ dict_get cfg "sleep_sec" = None
  /\ (forall m,
        dict_get d "title" = None -> dict_get d "message" = Some (PStr m) ->
        dict_get cfg "title" = Some (PDict [("text", PStr m)])
        /\ dict_get cfg "message" = None)
  /\ (forall v,
        dict_get d "title" = None -> dict_get d "message" = Some v -> is_str v = false ->
        dict_get cfg "title" = None /\ dict_get cfg "message" = None)
  /\ (forall t,
        dict_get d "title" = Some t ->
        dict_get cfg "title" = Some t /\ dict_get cfg "message" = dict_get d "message")
  /\ (forall k,
        k <> "busy_message" -> k <> "sleep_sec" -> k <> "title" -> k <> "message" ->
        dict_get cfg k = dict_get d k)
  /\ (forall s, dict_get d "sleep_sec" = Some (PFloat s) -> sleep_sec = s)
  /\ ((forall s, dict_get d "sleep_sec" <> Some (PFloat s)) -> sleep_sec = 1%Q).
Proof.
  cbv zeta. unfold __getLogoutConfig. simpl fst. simpl snd.
  set (d := config_dict config).
  set (d1 := match dict_get d "title", dict_get d "message" with
             | None, Some message =>
                 match message with
                 | PStr _ => dict_set (dict_pop d "message") "title" (PDict [("text", message)])
                 | _ => dict_pop d "message"
                 end
             | _, _ => d
             end).
  change (dict_get (dict_pop (dict_pop d1 "busy_message") "sleep_sec") "busy_message" = None
          /\ dict_get (dict_pop (dict_pop d1 "busy_message") "sleep_sec") "sleep_sec" = None
          /\ (forall m,
                dict_get d "title" = None -> dict_get d "message" = Some (PStr m) ->
                dict_get (dict_pop (dict_pop d1 "busy_message") "sleep_sec") "title"
                = Some (PDict [("text", PStr m)])
                /\ dict_get (dict_pop (dict_pop d1 "busy_message") "sleep_sec") "message" = None)
          /\ (forall v,
                dict_get d "title" = None -> dict_get d "message" = Some v ->
                is_str v = false ->
                dict_get (dict_pop (dict_pop d1 "busy_message") "sleep_sec") "title" = None
                /\ dict_get (dict_pop (dict_pop d1 "busy_message") "sleep_sec") "message" = None)
          /\ (forall t,
                dict_get d "title" = Some t ->
                dict_get (dict_pop (dict_pop d1 "busy_message") "sleep_sec") "title" = Some t
                /\ dict_get (dict_pop (dict_pop d1 "busy_message") "sleep_sec") "message"
                   = dict_get d "message")
          /\ (forall k,
                k <> "busy_message" -> k <> "sleep_sec" -> k <> "title" -> k <> "message" ->
                dict_get (dict_pop (dict_pop d1 "busy_message") "sleep_sec") k = dict_get d k)
          /\ (forall s,
                dict_get d "sleep_sec" = Some (PFloat s) ->
                match dict_get (dict_pop d1 "busy_message") "sleep_sec" with
                | Some (PFloat s') => s'
                | _ => 1%Q
                end = s)
          /\ ((forall s, dict_get d "sleep_sec" <> Some (PFloat s)) ->
              match dict_get (dict_pop d1 "busy_message") "sleep_sec" with
              | Some (PFloat s') => s'
              | _ => 1%Q
              end = 1%Q)).
  assert (forall k, k <> "busy_message" -> k <> "sleep_sec" ->
                    dict_get (dict_pop (dict_pop d1 "busy_message") "sleep_sec") k
                    = dict_get d1 k) as Hpops.
  { intros k H1 H2. rewrite dict_get_pop_ne by congruence. by rewrite dict_get_pop_ne by congruence. }
  assert (forall k, k <> "title" -> k <> "message" -> dict_get d1 k = dict_get d k) as Hrest.
  { intros k H1 H2. unfold d1.
    destruct (dict_get d "title"); [done|].
    destruct (dict_get d "message") as [[]|]; try done;
      rewrite ?dict_get_set_ne by congruence; by rewrite dict_get_pop_ne by congruence. }
  assert (dict_get (dict_pop d1 "busy_message") "sleep_sec" = dict_get d "sleep_sec") as Hsec.
  { rewrite dict_get_pop_ne by done. by apply Hrest. }
  split; [rewrite dict_get_pop_ne by done; apply dict_get_pop_eq|].
  split; [apply dict_get_pop_eq|].
  split; [|split; [|split; [|split; [|split]]]].
  - intros m Ht Hm. rewrite !Hpops by done. unfold d1. rewrite Ht, Hm.
    rewrite dict_get_set_eq. split; [done|].
    rewrite dict_get_set_ne by done. apply dict_get_pop_eq.
  - intros v Ht Hm Hv. rewrite !Hpops by done. unfold d1. rewrite Ht, Hm.
    destruct v; try done; rewrite dict_get_pop_eq;
      (split; [|done]); by rewrite dict_get_pop_ne by done.
  - intros t Ht. rewrite !Hpops by done. unfold d1. by rewrite Ht.
  - intros k H1 H2 H3 H4. rewrite Hpops by done. by apply Hrest.
  - intros s Hs. by rewrite Hsec, Hs.
  - intros Hs. rewrite Hsec. destruct (dict_get d "sleep_sec") as [[]|]; try done.
    by destruct (Hs q).
Qed.

(** X14: the configuration [__getLoginConfig] hands to the sign-in form has
    no [busy_message] and no [error_icon] left in it; with cookies configured
    it has a [remember] entry, the caller's if there is one and an empty
    [dict] otherwise, and without cookies it has one only if the caller gave
    it; every other key stays.  The error icon is a [str] or [None]. *)
Theorem getLoginConfig_result (config : Config) :
  let d := config_dict config in
  let cfg := (__getLoginConfig config).1.1 in
  let error_icon := (__getLoginConfig config).2 in
  dict_get cfg "busy_message" = None
  /\ dict_get cfg "error_icon" = None
  /\ (is_Some (cookie_configs self) ->
      dict_get cfg "remember" = Some (default (PDict []) (dict_get d "remember")))
  /\ (cookie_configs self = None -> dict_get cfg "remember" = dict_get d "remember")
  /\ (forall k,
        k <> "busy_message" -> k <> "error_icon" -> k <> "remember" ->
        dict_get cfg k = dict_get d k)
  /\ (error_icon = PNone \/ is_str error_icon = true).
Proof.
  cbv zeta. unfold __getLoginConfig. simpl fst. simpl snd.
  set (d := config_dict config).
  set (d1 := match cookie_configs self, dict_get d "remember" with
             | Some _, None => dict_set d "remember" (PDict [])
             | _, _ => d
             end).
  assert (forall k, k <> "busy_message" -> k <> "error_icon" ->
                    dict_get (dict_pop (dict_pop d1 "busy_message") "error_icon") k
                    = dict_get d1 k) as Hpops.
  { intros k H1 H2. rewrite dict_get_pop_ne by congruence. by rewrite dict_get_pop_ne by congruence. }
  split; [rewrite dict_get_pop_ne by done; apply dict_get_pop_eq|].
  split; [apply dict_get_pop_eq|].
  split; [|split; [|split]].
  - intros [c Hc]. rewrite Hpops by done. unfold d1. rewrite Hc.
    destruct (dict_get d "remember") eqn:E; simpl; [done|]. apply dict_get_set_eq.
  - intros Hc. rewrite Hpops by done. unfold d1. by rewrite Hc.
  - intros k H1 H2 H3. rewrite Hpops by done. unfold d1.
    destruct (cookie_configs self); [|done].
    destruct (dict_get d "remember"); [done|]. by rewrite dict_get_set_ne by congruence.
  - unfold str_or_none.
    destruct (dict_get (dict_pop d1 "busy_message") "error_icon") as [[]|]; auto.
Qed.

(** ** The login name, by what it contains *)

(** The character [c] does not occur in [s]. *)
Definition free_of (c : ascii) (s : list ascii) : bool :=
  forallb (fun c' => negb (Ascii.eqb c' c)) s.

(** The characters an atom of [r] lets pass. *)
Fixpoint accepts (r : regex) (c : ascii) : bool :=
  match r with
  | RBegin | REnd | REps => false
  | RChar c' => Ascii.eqb c c'
  | RAny => negb (Ascii.eqb c newline)
  | RSet p => p c
  | RCat r1 r2 => accepts r1 c || accepts r2 c
  | ROpt r1 | RStar r1 | RGroup _ r1 => accepts r1 c
  end.

Lemma free_of_app c s1 s2 : free_of c (s1 ++ s2) = free_of c s1 && free_of c s2.
Proof. apply forallb_app. Qed.

Lemma free_of_accepts r c s :
  forallb (accepts r) s = true -> accepts r c = false -> free_of c s = true.
Proof.
  intros Hs Hc. induction s as [|c' s IH]; [done|]. simpl in *.
  apply andb_true_iff in Hs as [Hc' Hs]. rewrite (IH Hs), andb_true_r.
  destruct (Ascii.eqb c' c) eqn:E; [|done]. apply Ascii.eqb_eq in E as ->. congruence.
Qed.

Lemma list_ascii_of_string_app (s1 s2 : string) :
  list_ascii_of_string (s1 +:+ s2) = list_ascii_of_string s1 ++ list_ascii_of_string s2.
Proof.
  induction s1 as [|a s1 IH]; [done|].
  change (String a s1 +:+ s2) with (String a (s1 +:+ s2)). simpl. by rewrite IH.
Qed.

(** [.*] tries the longest run first. *)
Lemma rmatch_star_any_nil inp k g : rmatch inp (RStar RAny) k [] g = k [] g.
Proof. reflexivity. Qed.

Lemma rmatch_star_any_cons inp k c s g :
  rmatch inp (RStar RAny) k (c :: s) g
  = if Ascii.eqb c newline then k (c :: s) g
    else match rmatch inp (RStar RAny) k s g with
         | Some res => Some res
         | None => k (c :: s) g
         end.
Proof.
  simpl. destruct (Ascii.eqb c newline); [done|].
  assert ((length s <? S (length s))%nat = true) as -> by (apply Nat.ltb_lt; lia).
  reflexivity.
Qed.

Lemma star_any_none inp k s g :
  (forall p q, s = p ++ q -> k q g = None) ->
  rmatch inp (RStar RAny) k s g = None.
Proof.
  induction s as [|c s IH]; intros Hk.
  - rewrite rmatch_star_any_nil. by apply (Hk [] []).
  - rewrite rmatch_star_any_cons.
    rewrite IH by (intros p q ->; by apply (Hk (c :: p) q)).
    rewrite (Hk [] (c :: s)) by done. by destruct (Ascii.eqb c newline).
Qed.

Lemma star_any_greedy inp k pre post g res :
  free_of newline pre = true ->
  (forall p q, post = p ++ q -> p <> [] -> k q g = None) ->
  k post g = Some res ->
  rmatch inp (RStar RAny) k (pre ++ post) g = Some res.
Proof.
  intros Hpre Hlater Hk. induction pre as [|c pre IH].
  - change ([] ++ post) with post. destruct post as [|c q]; [by rewrite rmatch_star_any_nil|].
    rewrite rmatch_star_any_cons, Hk.
    rewrite star_any_none; [by destruct (Ascii.eqb c newline)|].
    intros p q' ->. by apply (Hlater (c :: p) q').
  - simpl in Hpre. apply andb_true_iff in Hpre as [Hc Hpre].
    change ((c :: pre) ++ post) with (c :: pre ++ post).
    rewrite rmatch_star_any_cons. apply negb_true_iff in Hc. rewrite Hc.
    by rewrite (IH Hpre).
Qed.

(** The domain pattern matches a name with a backslash in it and splits it at
    the last one. *)
Lemma RegexDomain_split (d n : list ascii) :
  free_of newline d = true -> free_of newline n = true -> free_of "\" n = true ->
  re_match RegexDomain (string_of_list_ascii (d ++ "\"%char :: n))
  = Some [(2, string_of_list_ascii n); (1, string_of_list_ascii d)].
Proof.
  intros Hd Hn Hbs. unfold re_match, RegexDomain.
  rewrite list_ascii_of_string_of_list_ascii.
  set (inp := d ++ "\"%char :: n).
  rewrite rmatch_cat, rmatch_begin, Nat.eqb_refl, rmatch_cat, rmatch_group.
  unfold inp at 2 3. apply star_any_greedy; [done| |].
  - intros [|c p] q Hsplit Hp; [done|]. injection Hsplit as <- ->.
    rewrite rmatch_cat, rmatch_char. destruct q as [|c q]; [done|].
    rewrite free_of_app in Hbs. apply andb_true_iff in Hbs as [_ Hq].
    simpl in Hq. apply andb_true_iff in Hq as [Hc _].
    apply negb_true_iff in Hc. by rewrite Hc.
  - rewrite group_text_app, rmatch_cat, rmatch_char.
    assert (Ascii.eqb "\" "\" = true) as -> by done.
    rewrite rmatch_cat, rmatch_group.
    match goal with
    | |- rmatch ?i (RStar RAny) ?k n ?g = Some ?res =>
        pose proof (star_any_greedy i k n [] g res Hn) as Hstar
    end.
    rewrite app_nil_r in Hstar. apply Hstar.
    + intros [|c p] q Hsplit Hp; [done|discriminate].
    + pose proof (group_text_app n []) as Hg. rewrite app_nil_r in Hg.
      by rewrite rmatch_end, Hg.
Qed.

(** A match consumes characters that the atoms of the pattern let pass. *)
Lemma rmatch_consumes (r : regex) inp k s g res :
  rmatch inp r k s g = Some res ->
  exists pre post g',
    s = pre ++ post /\ forallb (accepts r) pre = true /\ k post g' = Some res.
Proof.
  revert k s g res.
  induction r as [| | |c| |p|r1 IH1 r2 IH2|r1 IH1|r1 IH1|i r1 IH1]; intros k s g res H.
  - simpl in H. destruct (length s =? length inp)%nat; [|done]. by exists [], s, g.
  - exists [], s, g. split; [done|]. split; [done|]. simpl in H.
    destruct s as [|c [|c' s]]; try done. by destruct (Ascii.eqb c newline).
  - by exists [], s, g.
  - simpl in H. destruct s as [|c' s']; [done|].
    destruct (Ascii.eqb c' c) eqn:E; [|done].
    exists [c'], s', g. simpl. by rewrite E.
  - simpl in H. destruct s as [|c' s']; [done|].
    destruct (Ascii.eqb c' newline) eqn:E; [done|].
    exists [c'], s', g. simpl. by rewrite E.
  - simpl in H. destruct s as [|c' s']; [done|].
    destruct (p c') eqn:E; [|done].
    exists [c'], s', g. simpl. by rewrite E.
  - rewrite rmatch_cat in H.
    apply IH1 in H as (pre1 & post1 & g1 & -> & Hp1 & H).
    apply IH2 in H as (pre2 & post2 & g2 & -> & Hp2 & H).
    exists (pre1 ++ pre2), post2, g2. split; [by rewrite app_assoc|]. split; [|done].
    rewrite forallb_app. apply andb_true_iff. split.
    + eapply forallb_weaken; [|exact Hp1]. intros c Hc. simpl. by rewrite Hc.
    + eapply forallb_weaken; [|exact Hp2]. intros c Hc. simpl. rewrite Hc. apply orb_true_r.
  - simpl in H. destruct (rmatch inp r1 k s g) as [res'|] eqn:E.
    + injection H as ->. by apply IH1 in E.
    + by exists [], s, g.
  - simpl in H. revert H. generalize (length s). intros n. revert s g.
    induction n as [|n IHn]; intros s g H; [by exists [], s, g|].
    match type of H with
    | match ?m with _ => _ end = _ => destruct m as [res'|] eqn:E
    end.
    + injection H as ->.
      apply IH1 in E as (pre1 & post1 & g1 & -> & Hp1 & E).
      destruct (length post1 <? length (pre1 ++ post1))%nat; [|done].
      apply IHn in E as (pre2 & post2 & g2 & -> & Hp2 & E).
      exists (pre1 ++ pre2), post2, g2. split; [by rewrite app_assoc|]. split; [|done].
      rewrite forallb_app. by apply andb_true_iff.
    + by exists [], s, g.
  - rewrite rmatch_group in H. apply IH1 in H as (pre & post & g' & -> & Hp & H).
    by exists pre, post, ((i, group_text (pre ++ post) post) :: g').
Qed.

(** A name the email pattern matches has an [@] in it and no backslash. *)
Lemma RegexEmail_rmatch inp s g :
  rmatch inp RegexEmail (fun _ g => Some g) s [] = Some g ->
  free_of "\" s = true /\ free_of "@" s = false.
Proof.
  unfold RegexEmail. intros H.
  rewrite rmatch_cat, rmatch_begin in H.
  destruct (length s =? length inp)%nat; [|done].
  rewrite rmatch_cat in H. apply rmatch_consumes in H as (pre1 & post1 & g1 & -> & Hp1 & H).
  rewrite rmatch_cat, rmatch_char in H.
  destruct post1 as [|c s2]; [done|].
  destruct (Ascii.eqb c "@") eqn:Hc; [|done]. apply Ascii.eqb_eq in Hc as ->.
  rewrite rmatch_cat in H. apply rmatch_consumes in H as (pre2 & post2 & g2 & -> & Hp2 & H).
  rewrite rmatch_cat in H. apply rmatch_consumes in H as (pre3 & post3 & g3 & -> & Hp3 & H).
  rewrite rmatch_end in H.
  assert (free_of "\" post3 = true) as Hp4.
  { destruct post3 as [|c [|c' post3]]; try done.
    destruct (Ascii.eqb c newline) eqn:Hc; [|done]. by apply Ascii.eqb_eq in Hc as ->. }
  split.
  - rewrite free_of_app. simpl. rewrite !free_of_app.
    rewrite (free_of_accepts _ _ _ Hp1), (free_of_accepts _ _ _ Hp2),
      (free_of_accepts _ _ _ Hp3), Hp4 by (by vm_compute).
    done.
  - rewrite free_of_app. simpl. apply andb_false_r.
Qed.

Lemma RegexEmail_match username g :
  re_match RegexEmail username = Some g ->
  free_of "\" (list_ascii_of_string username) = true
  /\ free_of "@" (list_ascii_of_string username) = false.
Proof. apply RegexEmail_rmatch. Qed.

(** X15: a login name with a backslash in it is bound as it is, and the
    directory is asked for the part after the last backslash: for every
    domain part (which may have backslashes of its own) and every short name
    without a backslash, neither with a newline in it. *)
Theorem domain_login_name (conn : Connection) (domain name : string) :
  free_of newline (list_ascii_of_string domain) = true ->
  free_of newline (list_ascii_of_string name) = true ->
  free_of "\" (list_ascii_of_string name) = true ->
  getLoginUserName (domain +:+ "\" +:+ name) = domain +:+ "\" +:+ name
  /\ getInfo conn (domain +:+ "\" +:+ name)
     = getInfoBySamAccountName (ldap_auth self) conn name.
Proof.
  intros Hd Hn Hbs. unfold getLoginUserName, getInfo.
  destruct (re_match RegexEmail (domain +:+ "\" +:+ name)) as [g|] eqn:E.
  { apply RegexEmail_match in E as [E _].
    rewrite list_ascii_of_string_app, free_of_app in E. simpl in E.
    by rewrite andb_false_r in E. }
  assert (domain +:+ "\" +:+ name
          = string_of_list_ascii
              (list_ascii_of_string domain ++ "\"%char :: list_ascii_of_string name)) as Hu.
  { rewrite string_of_list_ascii_app. simpl.
    by rewrite !string_of_list_ascii_of_string. }
  rewrite Hu at 1 2 3 4. rewrite (RegexDomain_split _ _ Hd Hn Hbs). simpl.
  by rewrite !string_of_list_ascii_of_string.
Qed.

(** X16: a login name with no backslash and no [@] in it is bound with the
    configured domain and a backslash before it, and the directory is asked
    for the name as it is. *)
Theorem bare_login_name (conn : Connection) (username : string) :
  free_of "\" (list_ascii_of_string username) = true ->
  free_of "@" (list_ascii_of_string username) = true ->
  getLoginUserName username = config_domain (ldap_auth self) +:+ "\" +:+ username
  /\ getInfo conn username = getInfoBySamAccountName (ldap_auth self) conn username.
Proof.
  intros Hbs Hat. unfold getLoginUserName, getInfo.
  destruct (re_match RegexEmail username) as [g|] eqn:E.
  { apply RegexEmail_match in E as [_ E]. congruence. }
  destruct (re_match RegexDomain username) as [g|] eqn:E'; [|done].
  apply RegexDomain_match in E' as (tail & Hu & _).
  rewrite Hu, !list_ascii_of_string_app, !free_of_app in Hbs. simpl in Hbs.
  by rewrite andb_false_r in Hbs.
Qed.
End Engine.

(** * A sample deployment, run *)

Module Run.
Import Demo.

Abbreviation login := (login jwt_encode jwt_decode getEvent auth).


(** C2, run: an error message rejects Alice. *)
Lemma additionalCheck_other_than_True_rejects_witness :
  __checkReauthentication jwt_encode auth (PDict alice) (Some (fun _ _ => PStr "locked"))
                          returning
  = (Ret false, log (EvAdditionalCheck (PDict alice)) returning).
Proof.
  apply (additionalCheck_other_than_True_rejects jwt_encode auth
           (fun _ _ => PStr "locked") alice returning); [discriminate | discriminate |].
  intros q [=].
Defined.

(** C2 as worded fails: the number [1] is not [True], and Alice passes. *)
Lemma additionalCheck_one_is_accepted :
  ~ rejects_unless_True jwt_encode auth (fun _ _ => PInt 1) alice returning.
Proof.
  intros H. destruct H as (w' & Hrun); [discriminate|].
  apply (f_equal fst) in Hrun. vm_compute in Hrun. discriminate.
Qed.

(** C3 as worded fails: a signed token with Bob and an integer [exp_date]
    that lies in the future meets none of the conditions listed, and gives
    no user. *)
Lemma tokenDecode_integer_exp_date :
  ~ decode_absent_as_specified jwt_decode cookie_cfg (PStr "Bob-int.jwt") reloaded.
Proof.
  intros (v & w' & Hrun & Hiff).
  apply (f_equal fst) in Hrun. vm_compute in Hrun. injection Hrun as <-.
  destruct Hiff as [Hfails _]. specialize (Hfails eq_refl).
  destruct Hfails as [?|[?|(t & Ht & Hrest)]]; [done|done|]. injection Ht as <-.
  destruct Hrest as [?|(value & Hv & Hrest)]; [done|].
  vm_compute in Hv. injection Hv as <-.
  destruct Hrest as [?|(d & Hd & Hp)]; [done|]. injection Hd as <-.
  destruct Hp as [?|[(x & Hx & ?)|[(x & e & Hx & He & Hlt)|[?|(x & Hx & ?)]]]]; try done.
  - vm_compute in Hx. by injection Hx as <-.
  - vm_compute in Hx. injection Hx as <-. injection He as <-. by vm_compute in Hlt.
  - vm_compute in Hx. by injection Hx as <-.
Qed.

(** C4, run: Alice's token, issued and read a day later. *)
Lemma token_round_trip_witness :
  exists token,
    __tokenEncode jwt_encode cookie_cfg (PDict alice) returning = (Ret token, returning)
    /\ __tokenDecode jwt_decode cookie_cfg (PStr token) next_day = (Ret (PDict alice), next_day).
Proof.
  apply (token_round_trip jwt_encode jwt_decode cookie_cfg alice returning next_day).
  - by vm_compute.
  - by vm_compute.
Defined.

(** C5, run: Alice is back, and her cookie is written again. *)
Lemma login_session_fast_path_witness :
  (login None None None CfgNone None returning).1 = Ret (PDict alice).
Proof.
  destruct (login_session_fast_path jwt_encode jwt_decode getEvent auth
              None None CfgNone None "user" alice returning eq_refl eq_refl)
    as (w' & evs & Hrun & _).
  { intros cfg [= <-]. discriminate. }
  rewrite Hrun. reflexivity.
Defined.

(** C5 as worded fails: with auto-renewal the fast path writes the cookie. *)
Lemma fast_path_renews_cookie :
  ~ fast_path_calls_nothing jwt_encode jwt_decode getEvent auth returning.
Proof.
  intros H. destruct (H alice eq_refl) as (w' & evs & Hrun & Htr & Hq).
  apply (f_equal (fun p => trace p.2)) in Hrun. cbv beta in Hrun.
  change (trace (Ret (PDict alice), w').2) with (trace w') in Hrun.
  rewrite Htr in Hrun. vm_compute in Hrun. subst evs. discriminate.
Qed.

(** C6, run: Bob reloads the page, and his cookie signs him in. *)
Lemma login_from_cookie_witness :
  exists w',
    login None None None CfgNone None reloaded = (Ret (PDict bob), w')
    /\ session_state w' !! "user" = Some (PDict bob).
Proof.
  destruct (login_from_cookie jwt_encode jwt_decode getEvent auth
              None None None CfgNone None "user" cookie_cfg "Bob.jwt"
              [("user", PDict bob); ("exp_date", PFloat (1000 + timedelta_days 30))]
              (1000 + timedelta_days 30)%Q bob reloaded)
    as (w' & evs & Hrun & Hss & _); try reflexivity.
  - by left.
  - discriminate.
  - exists w'. by split.
Defined.

(** C6 as worded fails: Bob's signed token with an integer [exp_date] that
    lies in the future does not sign him in; [login] returns [None]. *)
Lemma integer_exp_date_cookie_signs_nobody_in :
  ~ cookie_signs_in jwt_encode jwt_decode getEvent auth reloaded_int.
Proof.
  intros H.
  destruct (H "user" cookie_cfg "Bob-int.jwt"
              [("user", PDict bob); ("exp_date", PInt 2593000)]
              (PInt 2593000) (inject_Z 2593000) bob
              eq_refl (or_introl eq_refl) eq_refl eq_refl eq_refl eq_refl eq_refl
              eq_refl eq_refl) as (w' & evs & Hrun & _).
  apply (f_equal fst) in Hrun. vm_compute in Hrun. discriminate.
Qed.



(** C9, run: Alice cancels her sign-out. *)
Lemma createLogoutForm_cancel_witness :
  exists evs,
    createLogoutForm getEvent auth CfgNone (Some (fun _ => PStr "cancel")) signing_out
    = (Ret tt, logs evs signing_out).
Proof.
  destruct (createLogoutForm_cancel getEvent auth CfgNone (fun _ => PStr "cancel") signing_out
              eq_refl eq_refl) as (evs & Hrun & _).
  by exists evs.
Defined.

End Run.

(** * The sample deployment, further runs *)

Module RunMore.
Import Demo.

Abbreviation login := (login jwt_encode jwt_decode getEvent auth).
Abbreviation createLogoutForm := (createLogoutForm getEvent auth).

(** Nobody is signed in, the browser holds no cookie, nothing is submitted. *)
Definition visitor : World := mkWorld ∅ ∅ 1000 PNone PNone [].

(** Nobody is signed in; Alice submits the sign-in form with a wrong
    password. *)
Definition wrong_payload : PyVal :=
  PDict [("event", PStr "signin"); ("username", PStr "alice"); ("password", PStr "letmein");
         ("remember", PTrue)].

Definition wrong_password : World :=
  mkWorld {["auth_result" := wrong_payload]} ∅ 1000 wrong_payload PNone [].

(** Thirty-one days after the clock reading 1000. *)
Definition next_month : World := mkWorld ∅ ∅ 2679400 PNone PNone [].

(** X3, run: Bob's cookie is removed. *)
Lemma deleteCookie_removes_the_cookie_witness :
  exists w', __deleteCookie auth reloaded = (Ret tt, w') /\ cookies w' = ∅.
Proof.
  destruct (deleteCookie_removes_the_cookie auth cookie_cfg reloaded eq_refl)
    as (w' & Hrun & Hc & _).
  { discriminate. }
  exists w'. split; [exact Hrun|]. rewrite Hc. reflexivity.
Defined.

(** X4, run: Alice's cookie, written and read in the same cycle. *)
Lemma setCookie_getCookie_witness :
  exists w1,
    __setCookie jwt_encode auth (PDict alice) returning = (Ret tt, w1)
    /\ (__getCookie jwt_decode auth w1).1 = Ret (PDict alice).
Proof.
  destruct (setCookie_getCookie jwt_encode jwt_decode auth cookie_cfg alice returning eq_refl)
    as (w1 & Hrun & Hnow & Hget).
  { discriminate. }
  { discriminate. }
  { reflexivity. }
  exists w1. split; [exact Hrun|].
  apply (Hget w1 eq_refl). rewrite Hnow. discriminate.
Defined.

(** X5, run: a visitor is shown the form. *)
Lemma login_unauthenticated_witness :
  (login None None None CfgNone None visitor).1 = Ret PNone.
Proof.
  destruct (login_unauthenticated jwt_encode jwt_decode getEvent auth
              None None None CfgNone None visitor) as (w' & before & after & Hrun & _).
  { reflexivity. }
  { reflexivity. }
  { intros username password remember. discriminate. }
  rewrite Hrun. reflexivity.
Defined.

(** X6, run: a wrong password leaves the visitor unauthenticated. *)
Lemma login_failed_sign_in_witness :
  (login None None None CfgNone None wrong_password).1 = Ret PNone.
Proof.
  destruct (login_failed_sign_in jwt_encode jwt_decode getEvent auth
              None None None CfgNone None "alice" "letmein" PTrue
              (PStr "Wrong username or password") wrong_password)
    as (w' & evs & Hrun & _).
  { reflexivity. }
  { reflexivity. }
  { reflexivity. }
  { reflexivity. }
  { reflexivity. }
  rewrite Hrun. reflexivity.
Defined.

(** X7, run: Alice signs out. *)
Lemma createLogoutForm_signs_out_witness :
  (createLogoutForm CfgNone None signing_out).1 = Raise RerunException.
Proof.
  destruct (createLogoutForm_signs_out getEvent auth CfgNone None signing_out)
    as (w' & evs & Hrun & _).
  { reflexivity. }
  { reflexivity. }
  { discriminate. }
  { intros cfg [= <-]. discriminate. }
  rewrite Hrun. reflexivity.
Defined.

(** X8, run: Alice signs out and is shown the form in the next cycle. *)
Lemma logout_then_login_witness :
  exists w',
    createLogoutForm CfgNone None signing_out = (Raise RerunException, w')
    /\ (login None None None CfgNone None
          (mkWorld (session_state w') (cookies w') 2000 PNone PNone [])).1 = Ret PNone.
Proof.
  destruct (logout_then_login jwt_encode jwt_decode getEvent auth CfgNone None signing_out)
    as (w' & Hrun & Hnext).
  { reflexivity. }
  { reflexivity. }
  { discriminate. }
  { intros cfg [= <-]. discriminate. }
  { by exists "user". }
  exists w'. split; [exact Hrun|].
  apply Hnext; [reflexivity | reflexivity |].
  intros username password remember. discriminate.
Defined.

(** X11, run: Alice is returned and is in the session state. *)
Lemma login_returns_the_session_user_witness :
  PDict alice = PNone
  \/ (is_dict (PDict alice) = true
      /\ forall k,
           SessionStateConfig.user session_cfg = Some k ->
           k <> SessionStateConfig.remember_me session_cfg ->
           session_state (login None None None CfgNone None returning).2 !! k
           = Some (PDict alice)).
Proof.
  apply (login_returns_the_session_user jwt_encode jwt_decode getEvent auth
           None None None CfgNone None returning
           (login None None None CfgNone None returning).2 (PDict alice)).
  by vm_compute.
Defined.

(** X12, run: Alice's token, read thirty-one days after it was issued. *)
Lemma token_expires_witness :
  exists token,
    __tokenEncode jwt_encode cookie_cfg (PDict alice) returning = (Ret token, returning)
    /\ __tokenDecode jwt_decode cookie_cfg (PStr token) next_month
       = (Ret PNone, log (EvPrint "Token decode error: Cookie expired") next_month).
Proof.
  destruct (token_expires jwt_encode jwt_decode cookie_cfg alice returning next_month)
    as (token & Henc & Hexp & _).
  { reflexivity. }
  exists token. split; [exact Henc|]. apply Hexp. reflexivity.
Defined.

(** X15, run: a name with two backslashes. *)
Lemma domain_login_name_witness :
  getLoginUserName auth "EU\CORP\jdoe" = "EU\CORP\jdoe"
  /\ getInfo auth tt "EU\CORP\jdoe" = getInfoBySamAccountName ldap tt "jdoe".
Proof.
  apply (domain_login_name auth tt "EU\CORP" "jdoe"); reflexivity.
Defined.

(** X16, run: a bare name. *)
Lemma bare_login_name_witness :
  getLoginUserName auth "jdoe" = "CORP\jdoe"
  /\ getInfo auth tt "jdoe" = getInfoBySamAccountName ldap tt "jdoe".
Proof.
  apply (bare_login_name auth tt "jdoe"); reflexivity.
Defined.

End RunMore.
